(** * pywiring.i2c: the PCF8574 port expander driver

    A shallow embedding of [src/pywiring/i2c.py] (class [PCF8574IO]) and
    the properties of its direction-mask / shadow-register model.

    - Python integers are [Z]; a [numpy.uint8] is a [Z] in [0, 256) with
      the wrap-around written out ([invert], [uint8]).
    - A method is a computation in the monad [Py]: it takes the object and
      returns an outcome (a value or a raised exception) together with the
      object as the call left it.  An exception does not roll back the
      attribute assignments made before it was raised.
    - The I2C bus is the outside world: every transfer the driver issues is
      appended to [transfers], and the answer to the n-th transfer is given
      by [wire]. *)

From Stdlib Require Import ZArith List Lia Bool.
From Stdlib.Strings Require Import Byte Ascii.
From stdpp Require Import gmap.
Import ListNotations.

Local Open Scope Z_scope.

(** ** Exceptions and outcomes *)

Inductive exn : Type :=
| ValueError      (* [1 << pin] with a negative shift count *)
| OverflowError   (* a Python integer that does not fit a [uint8] *)
| IOError         (* a failed transfer on the bus *)
| KeyError.       (* a missing dictionary key *)

Inductive outcome (A : Type) : Type :=
| Return (a : A)
| Raise (e : exn).
Arguments Return {A} a.
Arguments Raise {A} e.

(** ** The bus (smbus.SMBus) *)

Inductive transfer : Type :=
| ReadByte (addr : Z)
| WriteByte (addr : Z) (value : Z).

(** [wire n] is what happens to the n-th transfer on the bus: [Some b]
    when the device acknowledges it ([b] is the byte it puts on the line
    when the transfer is a read), [None] when the transfer fails. *)
Record SMBus : Type := {
  wire : nat -> option byte;
  transfers : list transfer
}.

Definition SMBus_open (w : nat -> option byte) : SMBus :=
  {| wire := w; transfers := [] |}.

Definition byte_val (b : byte) : Z := Z.of_N (Byte.to_N b).

Definition next_reply (bus : SMBus) : option byte :=
  wire bus (length (transfers bus)).

Definition issue (t : transfer) (bus : SMBus) : SMBus :=
  {| wire := wire bus; transfers := transfers bus ++ [t] |}.

(** ** The object *)

Record PCF8574IO : Type := {
  _bus : SMBus;
  address : Z;
  _dirmask : Z;
  _shadow : Z
}.

Definition number_of_pins : Z := 8.

Definition set_bus (bus : SMBus) (self : PCF8574IO) : PCF8574IO :=
  {| _bus := bus; address := address self;
     _dirmask := _dirmask self; _shadow := _shadow self |}.

Definition set_dirmask (d : Z) (self : PCF8574IO) : PCF8574IO :=
  {| _bus := _bus self; address := address self;
     _dirmask := d; _shadow := _shadow self |}.

Definition set_shadow (s : Z) (self : PCF8574IO) : PCF8574IO :=
  {| _bus := _bus self; address := address self;
     _dirmask := _dirmask self; _shadow := s |}.

(** ** The monad of methods *)

Definition Py (A : Type) : Type := PCF8574IO -> outcome A * PCF8574IO.

Definition ret {A} (a : A) : Py A := fun self => (Return a, self).

Definition raise {A} (e : exn) : Py A := fun self => (Raise e, self).

Definition bind {A B} (m : Py A) (k : A -> Py B) : Py B :=
  fun self =>
    match m self with
    | (Return a, self') => k a self'
    | (Raise e, self') => (Raise e, self')
    end.

Definition lift {A} (o : outcome A) : Py A := fun self => (o, self).

Definition get {A} (f : PCF8574IO -> A) : Py A := fun self => (Return (f self), self).

Definition modify (f : PCF8574IO -> PCF8574IO) : Py unit :=
  fun self => (Return tt, f self).

Declare Scope py_scope.
Delimit Scope py_scope with py.
Notation "x <- m ;; k" := (bind m (fun x => k))
  (at level 100, m at next level, right associativity) : py_scope.
Notation "m ;; k" := (bind m (fun _ => k))
  (at level 100, right associativity) : py_scope.
Local Open Scope py_scope.

(** [for x in xs: body x] *)
Fixpoint for_in {A} (xs : list A) (body : A -> Py unit) : Py unit :=
  match xs with
  | [] => ret tt
  | x :: rest => body x ;; for_in rest body
  end.

(** [for x in xs: acc = body acc x], for a loop that updates a local. *)
Fixpoint for_acc {A S} (xs : list A) (body : S -> A -> outcome S) (acc : S)
  : outcome S :=
  match xs with
  | [] => Return acc
  | x :: rest =>
      match body acc x with
      | Return acc' => for_acc rest body acc'
      | Raise e => Raise e
      end
  end.

(** ** Bus primitives *)

Definition read_byte (addr : Z) : Py Z :=
  fun self =>
    let bus := _bus self in
    let self' := set_bus (issue (ReadByte addr) bus) self in
    match next_reply bus with
    | Some b => (Return (byte_val b), self')
    | None => (Raise IOError, self')
    end.

Definition write_byte (addr : Z) (value : Z) : Py unit :=
  fun self =>
    let bus := _bus self in
    let self' := set_bus (issue (WriteByte addr value) bus) self in
    match next_reply bus with
    | Some _ => (Return tt, self')
    | None => (Raise IOError, self')
    end.

(** ** Python dictionaries passed as arguments

    A dictionary that the driver iterates over is the list of its items
    in insertion order; [for k in d] walks the keys and [d[k]] looks the
    key up. *)

Definition keys {V} (d : list (Z * V)) : list Z := map fst d.

Fixpoint getitem {V} (d : list (Z * V)) (k : Z) : outcome V :=
  match d with
  | [] => Raise KeyError
  | (k', v) :: rest => if Z.eqb k' k then Return v else getitem rest k
  end.

(** ** Integers *)

(** [1 << n] on Python integers. *)
Definition shl1 (n : Z) : outcome Z :=
  if n <? 0 then Raise ValueError else Return (Z.shiftl 1 n).

(** [~x] on a [uint8]. *)
Definition invert (x : Z) : Z := Z.land (Z.lnot x) 255.

(** [0 <= pin < self.number_of_pins] *)
Definition in_range (pin : Z) : bool := (0 <=? pin) && (pin <? number_of_pins).

(** [bool(x)] on an integer. *)
Definition truthy (x : Z) : bool := negb (x =? 0).

Section Driver.

(** What numpy does with an integer outside [0, 256) that has to become a
    [uint8] depends on its version and on the integer: older releases wrap
    it around silently, newer ones raise [OverflowError].  [wraps z] tells
    which; nothing is assumed about it. *)
Variable wraps : Z -> bool.

(** [uint8(z)] *)
Definition uint8 (z : Z) : outcome Z :=
  if (0 <=? z) && (z <? 256) then Return z
  else if wraps z then Return (z mod 256)
  else Raise OverflowError.

(** [x & m] where [m] is a [uint8] and [x] any integer: [x] is brought to
    the type of [m]. *)
Definition and_uint8 (x m : Z) : outcome Z :=
  match uint8 x with
  | Return x' => Return (Z.land x' m)
  | Raise e => Raise e
  end.

(** ** PCF8574IO *)

(** [def write(self, value)] *)
Definition write (value : Z) : Py unit :=
  dirmask <- get _dirmask ;;
  d <- lift (uint8 dirmask) ;;
  s <- lift (and_uint8 value (invert d)) ;;
  modify (set_shadow s) ;;
  addr <- get address ;;
  shadow <- get _shadow ;;
  write_byte addr shadow.

(** [def _poweroff_inputs(self)] *)
Definition _poweroff_inputs : Py unit :=
  shadow <- get _shadow ;;
  write shadow.

(** [def pin_mode(self, pin, input, pullup=False, pulldown=False,
    localonly=False)] *)
Definition pin_mode (pin : Z) (input : bool) (pullup pulldown localonly : bool)
  : Py unit :=
  dirmask <- get _dirmask ;;
  bit <- lift (shl1 pin) ;;
  m <- lift (uint8 bit) ;;
  (if input
   then modify (set_dirmask (Z.lor dirmask m))
   else modify (set_dirmask (Z.land dirmask (invert m)))) ;;
  if negb localonly then _poweroff_inputs else ret tt.

(** [def port_mode(self, input, pullup=False, pulldown=False)] *)
Definition port_mode (input : bool) (pullup pulldown : bool) : Py unit :=
  m <- lift (if input then uint8 255 else uint8 0) ;;
  modify (set_dirmask m) ;;
  _poweroff_inputs.

(** [def pin_mode_bulk(self, pins)]: [pins] maps a pin to a tuple whose
    first component is the [input] flag. *)
Definition pin_mode_bulk (pins : list (Z * (bool * list bool))) : Py unit :=
  for_in (keys pins) (fun pin =>
    mode <- lift (getitem pins pin) ;;
    pin_mode pin (fst mode) false false true) ;;
  _poweroff_inputs.

(** [def read(self)] *)
Definition read : Py Z :=
  dirmask <- get _dirmask ;;
  addr <- get address ;;
  b <- read_byte addr ;;
  v <- lift (uint8 b) ;;
  ret (Z.land dirmask v).

(** [def digital_read_bulk(self, *pins)]: the result maps a pin to
    [Some b] for a boolean and to [None] for Python's [None]. *)
Definition digital_read_bulk (pins : list Z) : Py (gmap Z (option bool)) :=
  portstate <- read ;;
  ret (fold_left (fun (tor : gmap Z (option bool)) pin =>
         if in_range pin
         then
           let pval := portstate in
           <[pin := Some (truthy (Z.land (Z.shiftr pval pin) 1))]> tor
         else <[pin := None]> tor) pins ∅).

(** [def digital_read(self, pin)] *)
Definition digital_read (pin : Z) : Py (option bool) :=
  tor <- digital_read_bulk [pin] ;;
  match tor !! pin with
  | Some v => ret v
  | None => raise KeyError
  end.

(** [def digital_write_bulk(self, pins)] *)
Definition digital_write_bulk (pins : list (Z * bool)) : Py unit :=
  shadow0 <- get _shadow ;;
  shadow <- lift (for_acc (keys pins) (fun shadow pin =>
    if in_range pin
    then
      match shl1 pin with
      | Raise e => Raise e
      | Return bpin =>
          match getitem pins pin with
          | Raise e => Raise e
          | Return high =>
              if high then Return (Z.lor shadow bpin)
              else
                match uint8 bpin with
                | Raise e => Raise e
                | Return m => and_uint8 shadow (invert m)
                end
          end
      end
    else Return shadow) shadow0) ;;
  write shadow.

(** [def digital_write(self, pin, high)] *)
Definition digital_write (pin : Z) (high : bool) : Py unit :=
  digital_write_bulk [(pin, high)].

(** [def analog_read(self, pin)]: [None] is false in a condition. *)
Definition analog_read (pin : Z) : Py Z :=
  v <- digital_read pin ;;
  ret (match v with Some true => 255 | _ => 0 end).

(** [def analog_write(self, pin, value)] *)
Definition analog_write (pin : Z) (value : Z) : Py unit :=
  digital_write pin (0 <? value).

End Driver.

(** [I2CIOBase.__init__(self, bus, address)]: the bus is opened and the
    address stored; the other attributes do not exist yet.  The
    constructor of [IOBase] runs first; the four attributes the driver
    uses are all assigned after it has returned. *)
Definition I2CIOBase_init (bus : nat -> option byte) (address : Z) : PCF8574IO :=
  {| _bus := SMBus_open bus; address := address; _dirmask := 0; _shadow := 0 |}.

(** The body of [PCF8574IO.__init__] after the call to the base class. *)
Definition init_attributes (wraps : Z -> bool) : Py unit :=
  m <- lift (uint8 wraps 255) ;;
  modify (set_dirmask m) ;;
  addr <- get address ;;
  b <- read_byte addr ;;
  modify (set_shadow b).

(** [PCF8574IO.__init__(self, bus, address)] *)
Definition __init__ (wraps : Z -> bool) (bus : nat -> option byte) (address : Z)
  : outcome unit * PCF8574IO :=
  init_attributes wraps (I2CIOBase_init bus address).

(** ** Calls, for statements about sequences of calls *)

Inductive call : Type :=
| PinMode (pin : Z) (input pullup pulldown localonly : bool)
| PortMode (input pullup pulldown : bool)
| PinModeBulk (pins : list (Z * (bool * list bool)))
| PortWrite (value : Z)
| DigitalWrite (pin : Z) (high : bool)
| DigitalWriteBulk (pins : list (Z * bool)).

Definition exec (wraps : Z -> bool) (c : call) : Py unit :=
  match c with
  | PinMode pin input pullup pulldown localonly =>
      pin_mode wraps pin input pullup pulldown localonly
  | PortMode input pullup pulldown => port_mode wraps input pullup pulldown
  | PinModeBulk pins => pin_mode_bulk wraps pins
  | PortWrite value => write wraps value
  | DigitalWrite pin high => digital_write wraps pin high
  | DigitalWriteBulk pins => digital_write_bulk wraps pins
  end.

(** The object after a sequence of calls; a caller may catch an exception
    and go on, so the sequence continues past a call that raised. *)
Definition run (wraps : Z -> bool) (cs : list call) (self : PCF8574IO)
  : PCF8574IO :=
  fold_left (fun s c => snd (exec wraps c s)) cs self.

(** A call that synchronises the chip before it returns: every call but a
    [pin_mode] with [localonly] set. *)
Definition immediate (c : call) : bool :=
  match c with
  | PinMode _ _ _ _ localonly => negb localonly
  | _ => true
  end.

(** ** The representation invariant and the masking invariant *)

(** Both attributes hold 8-bit values. *)
Definition wf (self : PCF8574IO) : Prop :=
  0 <= _dirmask self < 256 /\ 0 <= _shadow self < 256.

(** No bit of the shadow is set on a pin configured as input. *)
Definition masked (self : PCF8574IO) : Prop :=
  Z.land (_shadow self) (_dirmask self) = 0.

(** ** Concrete objects *)

(** A chip that acknowledges every transfer and answers every read with
    the byte [b]. *)
Definition steady (b : byte) : nat -> option byte := fun _ => Some b.

(** numpy 2: an integer that does not fit raises. *)
Definition strict : Z -> bool := fun _ => false.

(** numpy 1: an integer that does not fit wraps around. *)
Definition legacy : Z -> bool := fun _ => true.

(** A port at address 0x27 whose chip answers 0x5a, as constructed. *)
Definition port_fresh : PCF8574IO := snd (__init__ strict (steady x5a) 39).

(** The port after [port_mode(False)] and [write(0x5a)]: all pins are
    outputs and the shadow is 0x5a. *)
Definition port_out : PCF8574IO :=
  run strict [PortMode false false false; PortWrite 90] port_fresh.

(** The port after pins 0..3 were made outputs and 0x0a was written:
    the direction mask is 0xf0 and the shadow 0x0a. *)
Definition port_mixed : PCF8574IO :=
  run strict
    [PinModeBulk [(0, (false, [])); (1, (false, [])); (2, (false, []));
                  (3, (false, []))];
     PortWrite 10] port_fresh.

(** ** Reading one pin off a port state *)

(** What [digital_read_bulk] stores for [pin]: bit [pin] of the port
    state inside the port, [None] outside. *)
Definition reading (portstate pin : Z) : option bool :=
  if in_range pin then Some (truthy (Z.land (Z.shiftr portstate pin) 1))
  else None.

(** The object after one read transfer has been issued. *)
Definition after_read (self : PCF8574IO) : PCF8574IO :=
  set_bus (issue (ReadByte (address self)) (_bus self)) self.

(** ** Writing several pins at once *)

(** Bit [i] of the value [digital_write_bulk] is to compute from the old
    shadow: the requested level for a pin inside the port that [pins]
    mentions, the old bit otherwise. *)
Definition bulk_bit (pins : list (Z * bool)) (shadow i : Z) : bool :=
  if in_range i
  then
    match getitem pins i with
    | Return high => high
    | Raise _ => Z.testbit shadow i
    end
  else Z.testbit shadow i.

(** A bus without transport errors: every transfer is acknowledged. *)
Definition reliable (bus : nat -> option byte) : Prop :=
  forall n, bus n <> None.


(** ** The bit generator

    [bin(num)] is Python's built-in: an optional minus sign, the prefix
    [0b], and the binary digits of the absolute value, most significant
    first, without leading zeros. *)

Local Open Scope char_scope.

Fixpoint pos_digits (p : positive) : list ascii :=
  match p with
  | xH => ["1"]
  | xO q => pos_digits q ++ ["0"]
  | xI q => pos_digits q ++ ["1"]
  end.

Definition bin (num : Z) : list ascii :=
  match num with
  | Z0 => ["0"; "b"; "0"]
  | Zpos p => ["0"; "b"] ++ pos_digits p
  | Zneg p => ["-"; "0"; "b"] ++ pos_digits p
  end.

(** [def num2boolgen(num)]: the values the generator yields, in order. *)
Definition num2boolgen (num : Z) : list bool :=
  map (fun bit => Ascii.eqb bit "1") (rev (skipn 2 (bin num))).

Local Close Scope char_scope.

(** The number a sequence of bits stands for, least significant first. *)
Fixpoint bits_value (bits : list bool) : Z :=
  match bits with
  | [] => 0
  | b :: rest => Z.b2z b + 2 * bits_value rest
  end.

(** ** Every public method as a request *)

Inductive request : Type :=
| Change (c : call)
| ReadPort
| DigitalRead (pin : Z)
| DigitalReadBulk (pins : list Z)
| AnalogRead (pin : Z)
| AnalogWrite (pin : Z) (value : Z).

(** The object as a request leaves it, whatever its outcome. *)
Definition serve (wraps : Z -> bool) (r : request) (self : PCF8574IO)
  : PCF8574IO :=
  match r with
  | Change c => snd (exec wraps c self)
  | ReadPort => snd (read wraps self)
  | DigitalRead pin => snd (digital_read wraps pin self)
  | DigitalReadBulk pins => snd (digital_read_bulk wraps pins self)
  | AnalogRead pin => snd (analog_read wraps pin self)
  | AnalogWrite pin value => snd (analog_write wraps pin value self)
  end.

Definition session (wraps : Z -> bool) (rs : list request) (self : PCF8574IO)
  : PCF8574IO :=
  fold_left (fun s r => serve wraps r s) rs self.

Definition transfer_address (t : transfer) : Z :=
  match t with
  | ReadByte addr => addr
  | WriteByte addr _ => addr
  end.

(** [self'] is [self] after at most [n] more transfers, all of them to the
    address of the device, on the same bus. *)
Definition extends_by (n : nat) (self self' : PCF8574IO) : Prop :=
  address self' = address self /\
  wire (_bus self') = wire (_bus self) /\
  exists l,
    transfers (_bus self') = transfers (_bus self) ++ l /\
    (length l <= n)%nat /\
    Forall (fun t => transfer_address t = address self) l.

(** Direction bit [i] after [pin_mode_bulk(pins)]: the flag [pins] gives
    for pin [i], the old bit for a pin it does not mention. *)
Definition bulk_direction_bit (pins : list (Z * (bool * list bool)))
    (dirmask i : Z) : bool :=
  match getitem pins i with
  | Return mode => fst mode
  | Raise _ => Z.testbit dirmask i
  end.

(** The pins of a mapping written one [digital_write] at a time. *)
Definition one_by_one (pins : list (Z * bool)) : list call :=
  map (fun item => DigitalWrite (fst item) (snd item)) pins.

(** Requests that synchronise the chip before they change anything else
    or change nothing: all but a local-only [pin_mode] and
    [pin_mode_bulk]. *)
Definition keeps_mask (r : request) : bool :=
  match r with
  | Change (PinMode _ _ _ _ localonly) => negb localonly
  | Change (PinModeBulk _) => false
  | _ => true
  end.

(** ** Eight-bit arithmetic *)

Lemma invert_mod (x : Z) : invert x = (255 - x) mod 256.
Proof.
  unfold invert. change 255 with (Z.ones 8) at 1.
  rewrite Z.land_ones by lia. unfold Z.lnot.
  change (2 ^ 8) with 256.
  replace (255 - x) with (Z.pred (- x) + 1 * 256) by lia.
  symmetry. apply Z_mod_plus_full.
Qed.

Lemma invert_range (x : Z) : 0 <= invert x < 256.
Proof. rewrite invert_mod. apply Z.mod_pos_bound. lia. Qed.

Lemma invert_small (x : Z) : 0 <= x < 256 -> invert x = 255 - x.
Proof. intros H. rewrite invert_mod. apply Z.mod_small. lia. Qed.

Lemma testbit_255 (i : Z) :
  Z.testbit 255 i = (0 <=? i) && (i <? 8).
Proof.
  change 255 with (Z.ones 8).
  destruct (Z.leb_spec 0 i) as [Hi | Hi]; simpl.
  - destruct (Z.ltb_spec i 8).
    + apply Z.ones_spec_low. lia.
    + apply Z.ones_spec_high. lia.
  - apply Z.testbit_neg_r. lia.
Qed.

Lemma testbit_invert (x i : Z) :
  Z.testbit (invert x) i = negb (Z.testbit x i) && ((0 <=? i) && (i <? 8)).
Proof.
  unfold invert. rewrite Z.land_spec, testbit_255.
  destruct (Z.leb_spec 0 i) as [Hi | Hi]; simpl.
  - rewrite Z.lnot_spec by lia. reflexivity.
  - rewrite !andb_false_r. reflexivity.
Qed.

Lemma u8_iff (x : Z) : 0 <= x < 256 <-> Z.land x 255 = x.
Proof.
  change 255 with (Z.ones 8). rewrite Z.land_ones by lia.
  change (2 ^ 8) with 256. split.
  - intros H. apply Z.mod_small. exact H.
  - intros <-. apply Z.mod_pos_bound. lia.
Qed.

Lemma land_range (x m : Z) : 0 <= m < 256 -> 0 <= Z.land x m < 256.
Proof.
  intros Hm. apply u8_iff in Hm. apply u8_iff.
  rewrite <- Z.land_assoc, Hm. reflexivity.
Qed.

Lemma lor_range (x y : Z) :
  0 <= x < 256 -> 0 <= y < 256 -> 0 <= Z.lor x y < 256.
Proof.
  intros Hx Hy. apply u8_iff in Hx, Hy. apply u8_iff.
  rewrite Z.land_lor_distr_l, Hx, Hy. reflexivity.
Qed.

(** The heart of the driver: what survives [& ~dirmask] has no bit in
    common with [dirmask]. *)
Lemma land_invert_disjoint (v d : Z) : Z.land (Z.land v (invert d)) d = 0.
Proof.
  apply Z.bits_inj'. intros i Hi.
  rewrite !Z.land_spec, testbit_invert, Z.bits_0.
  destruct (Z.testbit d i); simpl; rewrite ?andb_false_r; reflexivity.
Qed.

Lemma land_invert_lnot (v d : Z) :
  0 <= v < 256 -> Z.land v (invert d) = Z.land v (Z.lnot d).
Proof.
  intros Hv. unfold invert.
  rewrite (Z.land_comm (Z.lnot d)), Z.land_assoc. f_equal.
  change 255 with (Z.ones 8). rewrite Z.land_ones by lia.
  apply Z.mod_small. change (2 ^ 8) with 256. lia.
Qed.

Lemma shl1_range (pin : Z) :
  in_range pin = true -> shl1 pin = Return (Z.shiftl 1 pin) /\ 0 <= Z.shiftl 1 pin < 256.
Proof.
  unfold in_range, number_of_pins, shl1. intros H.
  apply andb_true_iff in H as [H0 H8].
  apply Z.leb_le in H0. apply Z.ltb_lt in H8.
  destruct (Z.ltb_spec pin 0); [lia |]. split; [reflexivity |].
  rewrite Z.shiftl_1_l. split.
  - apply Z.pow_nonneg. lia.
  - change 256 with (2 ^ 8). apply Z.pow_lt_mono_r; lia.
Qed.

Lemma testbit_shl1 (pin i : Z) :
  0 <= pin -> Z.testbit (Z.shiftl 1 pin) i = (i =? pin).
Proof.
  intros Hp. rewrite Z.shiftl_1_l.
  destruct (Z.eqb_spec i pin) as [-> | Hne].
  - apply Z.pow2_bits_true. lia.
  - apply Z.pow2_bits_false. lia.
Qed.

(** [bool((pval >> pin) & 0x01)] is bit [pin] of [pval]. *)
Lemma truthy_shiftr (pval pin : Z) :
  0 <= pin -> truthy (Z.land (Z.shiftr pval pin) 1) = Z.testbit pval pin.
Proof.
  intros Hp. unfold truthy.
  change 1 with (Z.ones 1). rewrite Z.land_ones by lia.
  change (2 ^ 1) with 2. rewrite <- Z.bit0_mod, Z.shiftr_spec by lia.
  rewrite Z.add_0_l. destruct (Z.testbit pval pin); reflexivity.
Qed.

Lemma byte_val_range (b : byte) : 0 <= byte_val b < 256.
Proof.
  unfold byte_val. pose proof (Byte.to_N_bounded b) as H.
  apply N2Z.inj_le in H. change (Z.of_N 255) with 255 in H. lia.
Qed.

Section Properties.

Variable wraps : Z -> bool.

Lemma uint8_small (z : Z) : 0 <= z < 256 -> uint8 wraps z = Return z.
Proof.
  intros [H0 H1]. unfold uint8.
  apply Z.leb_le in H0. apply Z.ltb_lt in H1. rewrite H0, H1. reflexivity.
Qed.

Lemma uint8_range (z v : Z) : uint8 wraps z = Return v -> 0 <= v < 256.
Proof.
  unfold uint8.
  destruct (Z.leb_spec 0 z); destruct (Z.ltb_spec z 256); simpl;
    try (destruct (wraps z); [| discriminate]);
    intros [= <-]; try lia; apply Z.mod_pos_bound; lia.
Qed.

Lemma and_uint8_small (x m : Z) :
  0 <= x < 256 -> and_uint8 wraps x m = Return (Z.land x m).
Proof. intros H. unfold and_uint8. rewrite uint8_small by exact H. reflexivity. Qed.


(** ** Raw port write *)

(** From a well-formed object, [write] is: bring [value] to eight bits,
    store the masked value, send it. *)
Lemma write_eq (value : Z) (self : PCF8574IO) :
  wf self ->
  write wraps value self =
    match uint8 wraps value with
    | Return x =>
        let s := Z.land x (invert (_dirmask self)) in
        write_byte (address self) s (set_shadow s self)
    | Raise e => (Raise e, self)
    end.
Proof.
  intros [Hd _]. unfold write, bind, get, lift, and_uint8.
  rewrite (uint8_small _ Hd).
  destruct (uint8 wraps value); reflexivity.
Qed.

Lemma write_byte_state (addr v : Z) (self : PCF8574IO) :
  snd (write_byte addr v self) = set_bus (issue (WriteByte addr v) (_bus self)) self.
Proof. unfold write_byte. destruct (next_reply (_bus self)); reflexivity. Qed.

Lemma write_wf (value : Z) (self : PCF8574IO) :
  wf self -> wf (snd (write wraps value self)).
Proof.
  intros Hwf. rewrite (write_eq _ _ Hwf).
  destruct (uint8 wraps value); [| exact Hwf].
  cbv zeta. rewrite write_byte_state. destruct Hwf as [Hd Hs].
  split; simpl; [exact Hd | apply land_range, invert_range].
Qed.

(** Once [write] has got past the conversion of its argument, the shadow
    is masked, whether the transfer succeeds or not. *)
Lemma write_masked (value : Z) (self : PCF8574IO) :
  wf self ->
  fst (write wraps value self) <> Raise OverflowError ->
  masked (snd (write wraps value self)) /\
  _dirmask (snd (write wraps value self)) = _dirmask self.
Proof.
  intros Hwf. rewrite (write_eq _ _ Hwf). unfold uint8.
  destruct ((0 <=? value) && (value <? 256)); [| destruct (wraps value)];
    cbv zeta; rewrite ?write_byte_state; simpl;
    try (intros _; split; [apply land_invert_disjoint | reflexivity]).
  intros H. contradiction H. reflexivity.
Qed.

(** What a [write] of an 8-bit value does to the object and the bus. *)
Lemma write_effect (v : Z) (self : PCF8574IO) :
  wf self ->
  0 <= v < 256 ->
  let self' := snd (write wraps v self) in
  _shadow self' = Z.land v (Z.lnot (_dirmask self)) /\
  (forall i, Z.testbit (_dirmask self) i = true ->
             Z.testbit (_shadow self') i = false) /\
  transfers (_bus self') =
    transfers (_bus self) ++ [WriteByte (address self) (_shadow self')] /\
  _dirmask self' = _dirmask self /\
  address self' = address self /\
  fst (write wraps v self) =
    match next_reply (_bus self) with
    | Some _ => Return tt
    | None => Raise IOError
    end.
Proof.
  intros Hwf Hv. cbv zeta.
  rewrite (write_eq _ _ Hwf), (uint8_small _ Hv). cbv zeta.
  rewrite write_byte_state. simpl.
  repeat split.
  - apply land_invert_lnot, Hv.
  - intros i Hi. rewrite Z.land_spec, testbit_invert, Hi. simpl.
    apply andb_false_r.
  - unfold write_byte. simpl. destruct (next_reply (_bus self)); reflexivity.
Qed.

(** C1. For every 8-bit value [v], [write(v)] stores [v & ~directionMask]
    in the shadow (so every bit whose direction bit is 1 is cleared), and
    then issues exactly one single-byte bus write, to the device address,
    of the shadow as just stored; the direction mask is left alone. *)
Theorem write_stores_masked_value_and_sends_it (v : Z) (self : PCF8574IO) :
  wf self ->
  0 <= v < 256 ->
  let self' := snd (write wraps v self) in
  _shadow self' = Z.land v (Z.lnot (_dirmask self)) /\
  (forall i, Z.testbit (_dirmask self) i = true ->
             Z.testbit (_shadow self') i = false) /\
  transfers (_bus self') =
    transfers (_bus self) ++ [WriteByte (address self) (_shadow self')] /\
  _dirmask self' = _dirmask self /\
  address self' = address self /\
  fst (write wraps v self) =
    match next_reply (_bus self) with
    | Some _ => Return tt
    | None => Raise IOError
    end.
Proof. exact (write_effect v self). Qed.

(** ** The invariants along calls *)

Lemma poweroff_eq (self : PCF8574IO) :
  wf self ->
  _poweroff_inputs wraps self =
    let s := Z.land (_shadow self) (invert (_dirmask self)) in
    write_byte (address self) s (set_shadow s self).
Proof.
  intros Hwf. unfold _poweroff_inputs, bind, get.
  rewrite (write_eq _ _ Hwf), (uint8_small _ (proj2 Hwf)). reflexivity.
Qed.

Lemma poweroff_wf (self : PCF8574IO) :
  wf self -> wf (snd (_poweroff_inputs wraps self)).
Proof. intros Hwf. unfold _poweroff_inputs, bind, get. apply write_wf, Hwf. Qed.

Lemma poweroff_masked (self : PCF8574IO) :
  wf self -> masked (snd (_poweroff_inputs wraps self)).
Proof.
  intros Hwf. rewrite (poweroff_eq _ Hwf). cbv zeta.
  rewrite write_byte_state. apply land_invert_disjoint.
Qed.

Lemma pin_mode_eq (pin : Z) (input pullup pulldown localonly : bool)
    (self : PCF8574IO) :
  pin_mode wraps pin input pullup pulldown localonly self =
    match shl1 pin with
    | Raise e => (Raise e, self)
    | Return bit =>
        match uint8 wraps bit with
        | Raise e => (Raise e, self)
        | Return m =>
            let d := if input then Z.lor (_dirmask self) m
                     else Z.land (_dirmask self) (invert m) in
            if localonly then (Return tt, set_dirmask d self)
            else _poweroff_inputs wraps (set_dirmask d self)
        end
    end.
Proof.
  unfold pin_mode, bind, get, lift.
  destruct (shl1 pin); [| reflexivity].
  destruct (uint8 wraps a); [| reflexivity].
  destruct input, localonly; reflexivity.
Qed.

Lemma set_dirmask_wf (d : Z) (self : PCF8574IO) :
  0 <= d < 256 -> wf self -> wf (set_dirmask d self).
Proof. intros Hd [_ Hs]. split; simpl; assumption. Qed.

Lemma pin_mode_dirmask_range (input : bool) (d m : Z) :
  0 <= d < 256 -> 0 <= m < 256 ->
  0 <= (if input then Z.lor d m else Z.land d (invert m)) < 256.
Proof.
  intros Hd Hm. destruct input.
  - apply lor_range; assumption.
  - apply land_range, invert_range.
Qed.

Lemma pin_mode_wf (pin : Z) (input pullup pulldown localonly : bool)
    (self : PCF8574IO) :
  wf self -> wf (snd (pin_mode wraps pin input pullup pulldown localonly self)).
Proof.
  intros Hwf. rewrite pin_mode_eq.
  destruct (shl1 pin) as [bit |]; [| exact Hwf].
  destruct (uint8 wraps bit) as [m |] eqn:Hm; [| exact Hwf].
  apply uint8_range in Hm. cbv zeta.
  assert (wf (set_dirmask (if input then Z.lor (_dirmask self) m
                           else Z.land (_dirmask self) (invert m)) self)) as Hwf'.
  { apply set_dirmask_wf; [| exact Hwf].
    apply pin_mode_dirmask_range; [apply Hwf | exact Hm]. }
  destruct localonly; [exact Hwf' | apply poweroff_wf, Hwf'].
Qed.

Lemma pin_mode_masked (pin : Z) (input pullup pulldown : bool)
    (self : PCF8574IO) :
  wf self ->
  fst (pin_mode wraps pin input pullup pulldown false self) = Return tt ->
  masked (snd (pin_mode wraps pin input pullup pulldown false self)).
Proof.
  intros Hwf. rewrite pin_mode_eq.
  destruct (shl1 pin) as [bit |]; [| discriminate].
  destruct (uint8 wraps bit) as [m |] eqn:Hm; [| discriminate].
  apply uint8_range in Hm. intros _. apply poweroff_masked.
  apply set_dirmask_wf; [| exact Hwf].
  apply pin_mode_dirmask_range; [apply Hwf | exact Hm].
Qed.

Lemma port_mode_eq (input pullup pulldown : bool) (self : PCF8574IO) :
  port_mode wraps input pullup pulldown self =
    _poweroff_inputs wraps (set_dirmask (if input then 255 else 0) self).
Proof.
  unfold port_mode, bind, lift, modify.
  destruct input; rewrite uint8_small by lia; reflexivity.
Qed.

Lemma port_mode_wf' (input : bool) (self : PCF8574IO) :
  wf self -> wf (set_dirmask (if input then 255 else 0) self).
Proof. intros Hwf. apply set_dirmask_wf; [destruct input; lia | exact Hwf]. Qed.

Lemma bind_wf {A B} (m : Py A) (k : A -> Py B) (self : PCF8574IO) :
  wf (snd (m self)) ->
  (forall a s, wf s -> wf (snd (k a s))) ->
  wf (snd (bind m k self)).
Proof.
  intros Hm Hk. unfold bind.
  destruct (m self) as [[a | e] self']; simpl in *; [apply Hk, Hm | exact Hm].
Qed.

Lemma bind_masked {A} (m : Py A) (k : A -> Py unit) (self : PCF8574IO) :
  wf (snd (m self)) ->
  (forall a s, wf s -> fst (k a s) = Return tt -> masked (snd (k a s))) ->
  fst (bind m k self) = Return tt ->
  masked (snd (bind m k self)).
Proof.
  intros Hm Hk. unfold bind.
  destruct (m self) as [[a | e] self']; simpl in *; [apply Hk, Hm | discriminate].
Qed.

Lemma for_in_wf {A} (xs : list A) (body : A -> Py unit) :
  (forall x self, wf self -> wf (snd (body x self))) ->
  forall self, wf self -> wf (snd (for_in xs body self)).
Proof.
  intros Hbody. induction xs as [| x rest IH]; intros self Hwf; simpl.
  - exact Hwf.
  - unfold bind. specialize (Hbody x self Hwf).
    destruct (body x self) as [[[] | e] self']; simpl in *.
    + apply IH, Hbody.
    + exact Hbody.
Qed.

Lemma pin_mode_bulk_loop_wf (pins : list (Z * (bool * list bool)))
    (pin : Z) (self : PCF8574IO) :
  wf self ->
  wf (snd ((mode <- lift (getitem pins pin) ;;
            pin_mode wraps pin (fst mode) false false true) self)).
Proof.
  intros Hwf. unfold bind, lift.
  destruct (getitem pins pin); [apply pin_mode_wf, Hwf | exact Hwf].
Qed.

Lemma digital_write_bulk_eq (pins : list (Z * bool)) (self : PCF8574IO) :
  exists o,
    digital_write_bulk wraps pins self =
      match o with
      | Return v => write wraps v self
      | Raise e => (Raise e, self)
      end.
Proof.
  unfold digital_write_bulk, bind, get, lift.
  match goal with |- context [for_acc ?xs ?f ?a] => exists (for_acc xs f a) end.
  match goal with |- context [for_acc ?xs ?f ?a] => destruct (for_acc xs f a) end;
    reflexivity.
Qed.

Lemma exec_wf (c : call) (self : PCF8574IO) :
  wf self -> wf (snd (exec wraps c self)).
Proof.
  intros Hwf. destruct c; simpl.
  - apply pin_mode_wf, Hwf.
  - rewrite port_mode_eq. apply poweroff_wf, port_mode_wf', Hwf.
  - unfold pin_mode_bulk. apply bind_wf.
    + apply for_in_wf; [apply pin_mode_bulk_loop_wf | exact Hwf].
    + intros _ s Hs. apply poweroff_wf, Hs.
  - apply write_wf, Hwf.
  - unfold digital_write.
    destruct (digital_write_bulk_eq [(pin, high)] self) as [[v | e] ->];
      [apply write_wf, Hwf | exact Hwf].
  - destruct (digital_write_bulk_eq pins self) as [[v | e] ->];
      [apply write_wf, Hwf | exact Hwf].
Qed.

Lemma run_wf (cs : list call) (self : PCF8574IO) :
  wf self -> wf (run wraps cs self).
Proof.
  revert self. induction cs as [| c cs IH]; intros self Hwf; simpl.
  - exact Hwf.
  - apply IH, exec_wf, Hwf.
Qed.

Lemma write_returns_masked (v : Z) (self : PCF8574IO) :
  wf self ->
  fst (write wraps v self) = Return tt ->
  masked (snd (write wraps v self)).
Proof.
  intros Hwf Hret. apply write_masked; [exact Hwf |].
  rewrite Hret. discriminate.
Qed.

Lemma exec_masked (c : call) (self : PCF8574IO) :
  wf self ->
  immediate c = true ->
  fst (exec wraps c self) = Return tt ->
  masked (snd (exec wraps c self)).
Proof.
  intros Hwf Himm. destruct c; simpl in *.
  - apply negb_true_iff in Himm. subst localonly. apply pin_mode_masked, Hwf.
  - intros _. rewrite port_mode_eq. apply poweroff_masked, port_mode_wf', Hwf.
  - unfold pin_mode_bulk. apply bind_masked.
    + apply for_in_wf; [apply pin_mode_bulk_loop_wf | exact Hwf].
    + intros _ s Hs _. apply poweroff_masked, Hs.
  - apply write_returns_masked, Hwf.
  - unfold digital_write.
    destruct (digital_write_bulk_eq [(pin, high)] self) as [[v | e] ->];
      [apply write_returns_masked, Hwf | discriminate].
  - destruct (digital_write_bulk_eq pins self) as [[v | e] ->];
      [apply write_returns_masked, Hwf | discriminate].
Qed.

(** C2. After any sequence of calls on a port, every call that applies
    its change immediately ([pin_mode] without [localonly], [port_mode],
    [pin_mode_bulk], [write], [digital_write], [digital_write_bulk]) and
    completes leaves [shadow & directionMask == 0]. *)
Theorem shadow_masked_after_every_call
    (self : PCF8574IO) (cs : list call) (c : call) :
  wf self ->
  immediate c = true ->
  fst (exec wraps c (run wraps cs self)) = Return tt ->
  Z.land (_shadow (snd (exec wraps c (run wraps cs self))))
         (_dirmask (snd (exec wraps c (run wraps cs self)))) = 0.
Proof.
  intros Hwf Himm Hret.
  apply (exec_masked c (run wraps cs self)); [apply run_wf, Hwf | exact Himm | exact Hret].
Qed.

(** ** Raw port read and the digital read API *)

Lemma read_eq (self : PCF8574IO) :
  read wraps self =
    match next_reply (_bus self) with
    | Some b => (Return (Z.land (_dirmask self) (byte_val b)), after_read self)
    | None => (Raise IOError, after_read self)
    end.
Proof.
  unfold read, bind, get, read_byte, lift, after_read. cbv zeta.
  destruct (next_reply (_bus self)) as [b |]; [| reflexivity].
  rewrite uint8_small by apply byte_val_range. reflexivity.
Qed.

Lemma bulk_fold_reading (portstate : Z) (pins : list Z)
    (tor : gmap Z (option bool)) :
  fold_left (fun (tor : gmap Z (option bool)) pin =>
       if in_range pin
       then
         let pval := portstate in
         <[pin := Some (truthy (Z.land (Z.shiftr pval pin) 1))]> tor
       else <[pin := None]> tor) pins tor =
  fold_left (fun (tor : gmap Z (option bool)) pin =>
       <[pin := reading portstate pin]> tor) pins tor.
Proof.
  revert tor. induction pins as [| pin rest IH]; intros tor; simpl.
  - reflexivity.
  - rewrite IH. unfold reading. destruct (in_range pin); reflexivity.
Qed.

Lemma bulk_lookup_other (portstate : Z) (pins : list Z)
    (tor : gmap Z (option bool)) (p : Z) :
  ~ In p pins ->
  fold_left (fun (tor : gmap Z (option bool)) pin =>
       <[pin := reading portstate pin]> tor) pins tor !! p = tor !! p.
Proof.
  revert tor. induction pins as [| pin rest IH]; intros tor Hp; simpl.
  - reflexivity.
  - rewrite IH by (intros H; apply Hp; right; exact H).
    apply lookup_insert_ne. intros ->. apply Hp. left. reflexivity.
Qed.

Lemma bulk_lookup_requested (portstate : Z) (pins : list Z)
    (tor : gmap Z (option bool)) (p : Z) :
  In p pins ->
  fold_left (fun (tor : gmap Z (option bool)) pin =>
       <[pin := reading portstate pin]> tor) pins tor !! p =
  Some (reading portstate p).
Proof.
  revert tor. induction pins as [| pin rest IH]; intros tor Hp; simpl.
  - destruct Hp.
  - destruct (in_dec Z.eq_dec p rest) as [Hin | Hout].
    + apply IH, Hin.
    + destruct Hp as [-> | Hin]; [| contradiction].
      rewrite bulk_lookup_other by exact Hout. apply lookup_insert_eq.
Qed.

Lemma digital_read_bulk_eq (pins : list Z) (self : PCF8574IO) :
  digital_read_bulk wraps pins self =
    match next_reply (_bus self) with
    | Some b =>
        (Return (fold_left (fun (tor : gmap Z (option bool)) pin =>
                   <[pin := reading (Z.land (_dirmask self) (byte_val b)) pin]> tor)
                 pins ∅),
         after_read self)
    | None => (Raise IOError, after_read self)
    end.
Proof.
  unfold digital_read_bulk, bind. rewrite read_eq.
  destruct (next_reply (_bus self)) as [b |]; [| reflexivity].
  unfold ret. rewrite bulk_fold_reading. reflexivity.
Qed.

Lemma digital_read_eq (pin : Z) (self : PCF8574IO) :
  digital_read wraps pin self =
    match next_reply (_bus self) with
    | Some b =>
        (Return (reading (Z.land (_dirmask self) (byte_val b)) pin),
         after_read self)
    | None => (Raise IOError, after_read self)
    end.
Proof.
  unfold digital_read, bind. rewrite digital_read_bulk_eq.
  destruct (next_reply (_bus self)) as [b |]; [| reflexivity].
  simpl. rewrite lookup_insert_eq. reflexivity.
Qed.

Lemma reading_in_range (portstate pin : Z) :
  0 <= pin < 8 -> reading portstate pin = Some (Z.testbit portstate pin).
Proof.
  intros [H0 H8]. unfold reading, in_range, number_of_pins.
  apply Z.leb_le in H0 as H0'. apply Z.ltb_lt in H8 as H8'.
  rewrite H0', H8'. simpl. rewrite truthy_shiftr by exact H0. reflexivity.
Qed.

Lemma reading_out_of_range (portstate pin : Z) :
  ~ 0 <= pin < 8 -> reading portstate pin = None.
Proof.
  intros H. unfold reading, in_range, number_of_pins.
  destruct (Z.leb_spec 0 pin); destruct (Z.ltb_spec pin 8); simpl;
    try reflexivity; lia.
Qed.

(** C3. [read()] issues exactly one single-byte bus read of the device
    address and leaves shadow and direction mask alone; when the chip
    answers with a byte, [read()] returns that byte ANDed with the
    direction mask, so [digital_read] of a pin 0..7 configured as output
    returns false whatever the byte. *)
Theorem read_masks_with_direction (self : PCF8574IO) :
  transfers (_bus (snd (read wraps self))) =
    transfers (_bus self) ++ [ReadByte (address self)] /\
  _shadow (snd (read wraps self)) = _shadow self /\
  _dirmask (snd (read wraps self)) = _dirmask self /\
  forall b : byte,
    next_reply (_bus self) = Some b ->
    fst (read wraps self) = Return (Z.land (_dirmask self) (byte_val b)) /\
    forall pin,
      0 <= pin < 8 ->
      Z.testbit (_dirmask self) pin = false ->
      fst (digital_read wraps pin self) = Return (Some false).
Proof.
  rewrite read_eq.
  split; [| split; [| split]];
    try (destruct (next_reply (_bus self)); reflexivity).
  intros b Hb. rewrite Hb. split; [reflexivity |].
  intros pin Hpin Hout. rewrite digital_read_eq, Hb. simpl.
  rewrite reading_in_range by exact Hpin.
  rewrite Z.land_spec, Hout. reflexivity.
Qed.

(** C4. For every sequence of requested pins, [digital_read_bulk] issues
    exactly one bus transfer, a read of the device address; when the chip
    answers it, the call returns a mapping that sends each requested pin
    [p] with [0 <= p < 8] to bit [p] of that one masked read, each
    requested pin outside 0..7 to [None], and holds no other key. *)
Theorem digital_read_bulk_single_read (pins : list Z) (self : PCF8574IO) :
  transfers (_bus (snd (digital_read_bulk wraps pins self))) =
    transfers (_bus self) ++ [ReadByte (address self)] /\
  forall b : byte,
    next_reply (_bus self) = Some b ->
    exists tor : gmap Z (option bool),
      fst (digital_read_bulk wraps pins self) = Return tor /\
      (forall p, In p pins -> 0 <= p < 8 ->
         tor !! p = Some (Some (Z.testbit (Z.land (_dirmask self) (byte_val b)) p))) /\
      (forall p, In p pins -> ~ 0 <= p < 8 -> tor !! p = Some None) /\
      (forall p, ~ In p pins -> tor !! p = None).
Proof.
  rewrite digital_read_bulk_eq. split.
  - destruct (next_reply (_bus self)); reflexivity.
  - intros b Hb. rewrite Hb. eexists. split; [reflexivity |].
    split; [| split].
    + intros p Hin Hp. rewrite bulk_lookup_requested by exact Hin.
      rewrite reading_in_range by exact Hp. reflexivity.
    + intros p Hin Hp. rewrite bulk_lookup_requested by exact Hin.
      rewrite reading_out_of_range by exact Hp. reflexivity.
    + intros p Hout. rewrite bulk_lookup_other by exact Hout.
      apply lookup_empty.
Qed.

(** ** The digital write API *)

Lemma testbit_outside_u8 (x i : Z) :
  0 <= x < 256 -> ~ 0 <= i < 8 -> Z.testbit x i = false.
Proof.
  intros Hx Hi. apply u8_iff in Hx. rewrite <- Hx, Z.land_spec, testbit_255.
  destruct (Z.leb_spec 0 i); destruct (Z.ltb_spec i 8); simpl;
    try apply andb_false_r; lia.
Qed.

Lemma in_range_iff (pin : Z) : in_range pin = true <-> 0 <= pin < 8.
Proof.
  unfold in_range, number_of_pins.
  rewrite andb_true_iff, Z.leb_le, Z.ltb_lt. reflexivity.
Qed.

Lemma getitem_key {V} (d : list (Z * V)) (k : Z) :
  In k (keys d) -> exists v, getitem d k = Return v.
Proof.
  induction d as [| [k' v'] rest IH]; simpl; [intros [] |].
  intros Hin. destruct (Z.eqb_spec k' k) as [-> | Hne].
  - exists v'. reflexivity.
  - destruct Hin as [-> | Hin]; [contradiction | apply IH, Hin].
Qed.

Lemma getitem_no_key {V} (d : list (Z * V)) (k : Z) :
  existsb (Z.eqb k) (keys d) = false -> getitem d k = Raise KeyError.
Proof.
  induction d as [| [k' v'] rest IH]; simpl; [reflexivity |].
  rewrite orb_false_iff. intros [Hne Hrest].
  rewrite Z.eqb_sym in Hne. rewrite Hne. apply IH, Hrest.
Qed.

(** The loop of [digital_write_bulk], run over any part [ks] of the keys
    of [pins]. *)
Lemma bulk_loop (pins : list (Z * bool)) (ks : list Z) :
  (forall k, In k ks -> exists h, getitem pins k = Return h) ->
  forall acc, 0 <= acc < 256 ->
  exists v,
    for_acc ks (fun shadow pin =>
      if in_range pin
      then
        match shl1 pin with
        | Raise e => Raise e
        | Return bpin =>
            match getitem pins pin with
            | Raise e => Raise e
            | Return high =>
                if high then Return (Z.lor shadow bpin)
                else
                  match uint8 wraps bpin with
                  | Raise e => Raise e
                  | Return m => and_uint8 wraps shadow (invert m)
                  end
            end
        end
      else Return shadow) acc = Return v /\
    0 <= v < 256 /\
    forall i,
      Z.testbit v i =
        if in_range i && existsb (Z.eqb i) ks
        then match getitem pins i with Return h => h | Raise _ => false end
        else Z.testbit acc i.
Proof.
  induction ks as [| k rest IH]; intros Hkeys acc Hacc.
  - exists acc. simpl. split; [reflexivity | split; [exact Hacc |]].
    intros i. rewrite andb_false_r. reflexivity.
  - assert (forall k', In k' rest -> exists h, getitem pins k' = Return h)
      as Hrest by (intros k' H; apply Hkeys; right; exact H).
    specialize (IH Hrest). cbn [for_acc].
    destruct (in_range k) eqn:Hk.
    + destruct (shl1_range k Hk) as [-> Hbit].
      apply in_range_iff in Hk as Hk8.
      destruct (Hkeys k (or_introl eq_refl)) as [h Hh]. rewrite Hh.
      destruct h.
      * destruct (IH (Z.lor acc (Z.shiftl 1 k))) as (v & Hv & Hr & Hbits).
        { apply lor_range; assumption. }
        exists v. split; [exact Hv | split; [exact Hr |]].
        intros i. rewrite Hbits. cbn [existsb].
        rewrite Z.lor_spec, testbit_shl1 by lia.
        destruct (Z.eqb_spec i k) as [-> | Hne].
        -- rewrite Hk, Hh. simpl. destruct (existsb (Z.eqb k) rest); simpl;
             [reflexivity | apply orb_true_r].
        -- simpl. rewrite orb_false_r. reflexivity.
      * rewrite (uint8_small _ Hbit), (and_uint8_small _ _ Hacc).
        destruct (IH (Z.land acc (invert (Z.shiftl 1 k)))) as (v & Hv & Hr & Hbits).
        { apply land_range, invert_range. }
        exists v. split; [exact Hv | split; [exact Hr |]].
        intros i. rewrite Hbits. cbn [existsb].
        rewrite Z.land_spec, testbit_invert, testbit_shl1 by lia.
        destruct (Z.eqb_spec i k) as [-> | Hne].
        -- rewrite Hk, Hh. simpl. destruct (existsb (Z.eqb k) rest); simpl;
             [reflexivity | apply andb_false_r].
        -- simpl. destruct (in_range i) eqn:Hi; simpl.
           ++ destruct (existsb (Z.eqb i) rest); [reflexivity |].
              apply in_range_iff in Hi. destruct Hi as [Hi0 Hi8].
              apply Z.leb_le in Hi0. apply Z.ltb_lt in Hi8.
              rewrite Hi0, Hi8. simpl. apply andb_true_r.
           ++ assert (~ 0 <= i < 8) as Hout
                by (rewrite <- in_range_iff, Hi; discriminate).
              rewrite (testbit_outside_u8 _ _ Hacc Hout). reflexivity.
    + destruct (IH acc Hacc) as (v & Hv & Hr & Hbits).
      exists v. split; [exact Hv | split; [exact Hr |]].
      intros i. rewrite Hbits. cbn [existsb].
      destruct (Z.eqb_spec i k) as [-> | Hne]; [| reflexivity].
      rewrite Hk. reflexivity.
Qed.

Lemma digital_write_bulk_value (pins : list (Z * bool)) (self : PCF8574IO) :
  wf self ->
  exists value,
    0 <= value < 256 /\
    (forall i, Z.testbit value i = bulk_bit pins (_shadow self) i) /\
    digital_write_bulk wraps pins self = write wraps value self.
Proof.
  intros [Hd Hs].
  destruct (bulk_loop pins (keys pins) (getitem_key pins) (_shadow self) Hs)
    as (v & Hv & Hr & Hbits).
  exists v. split; [exact Hr | split].
  - intros i. rewrite Hbits. unfold bulk_bit.
    destruct (in_range i); [| reflexivity]. simpl.
    destruct (existsb (Z.eqb i) (keys pins)) eqn:Hex.
    + apply existsb_exists in Hex as (k & Hin & Heq).
      apply Z.eqb_eq in Heq. subst k.
      destruct (getitem_key pins i Hin) as [h ->]. reflexivity.
    + rewrite (getitem_no_key _ _ Hex). reflexivity.
  - unfold digital_write_bulk, bind, get, lift. rewrite Hv. reflexivity.
Qed.

(** C5. For every mapping [pins], [digital_write_bulk] computes a value
    from the current shadow in which the bit of every pin 0..7 mapped to
    true is set, the bit of every pin 0..7 mapped to false is cleared and
    every other bit is the shadow's, and then makes exactly one [write()]
    call with it: one bus write transfer, also for an empty mapping.  The
    direction mask is not modified. *)
Theorem digital_write_bulk_single_write
    (pins : list (Z * bool)) (self : PCF8574IO) :
  wf self ->
  exists value,
    (forall i, Z.testbit value i = bulk_bit pins (_shadow self) i) /\
    digital_write_bulk wraps pins self = write wraps value self /\
    transfers (_bus (snd (digital_write_bulk wraps pins self))) =
      transfers (_bus self) ++
      [WriteByte (address self) (Z.land value (Z.lnot (_dirmask self)))] /\
    _dirmask (snd (digital_write_bulk wraps pins self)) = _dirmask self.
Proof.
  intros Hwf.
  destruct (digital_write_bulk_value pins self Hwf) as (v & Hr & Hbits & Heq).
  exists v. split; [exact Hbits | split; [exact Heq |]].
  rewrite Heq.
  destruct (write_effect v self Hwf Hr)
    as (Hs & _ & Ht & Hd & _).
  rewrite Ht, Hs. split; [reflexivity | exact Hd].
Qed.

(** ** Calls that complete

    On a well-formed object, with a pin inside the port and a chip that
    acknowledges the transfer, the calls return normally. *)

Lemma poweroff_ok (self : PCF8574IO) (b : byte) :
  wf self ->
  next_reply (_bus self) = Some b ->
  _poweroff_inputs wraps self =
    let s := Z.land (_shadow self) (invert (_dirmask self)) in
    (Return tt,
     {| _bus := issue (WriteByte (address self) s) (_bus self);
        address := address self; _dirmask := _dirmask self; _shadow := s |}).
Proof.
  intros Hwf Hb. rewrite (poweroff_eq _ Hwf). cbv zeta.
  unfold write_byte. simpl. rewrite Hb. reflexivity.
Qed.

Lemma pin_mode_ok (pin : Z) (input pullup pulldown : bool)
    (self : PCF8574IO) (b : byte) :
  wf self ->
  0 <= pin < 8 ->
  next_reply (_bus self) = Some b ->
  pin_mode wraps pin input pullup pulldown false self =
    let d := if input then Z.lor (_dirmask self) (Z.shiftl 1 pin)
             else Z.land (_dirmask self) (invert (Z.shiftl 1 pin)) in
    let s := Z.land (_shadow self) (invert d) in
    (Return tt,
     {| _bus := issue (WriteByte (address self) s) (_bus self);
        address := address self; _dirmask := d; _shadow := s |}).
Proof.
  intros Hwf Hpin Hb. rewrite pin_mode_eq.
  apply in_range_iff in Hpin. destruct (shl1_range pin Hpin) as [-> Hbit].
  rewrite (uint8_small _ Hbit). cbv zeta.
  rewrite (poweroff_ok _ b); [reflexivity | | exact Hb].
  apply set_dirmask_wf; [| exact Hwf].
  apply pin_mode_dirmask_range; [apply Hwf | exact Hbit].
Qed.

Lemma port_mode_ok (input pullup pulldown : bool) (self : PCF8574IO) (b : byte) :
  wf self ->
  next_reply (_bus self) = Some b ->
  port_mode wraps input pullup pulldown self =
    let d := if input then 255 else 0 in
    let s := Z.land (_shadow self) (invert d) in
    (Return tt,
     {| _bus := issue (WriteByte (address self) s) (_bus self);
        address := address self; _dirmask := d; _shadow := s |}).
Proof.
  intros Hwf Hb. rewrite port_mode_eq.
  rewrite (poweroff_ok _ b); [reflexivity | | exact Hb].
  apply (port_mode_wf' input), Hwf.
Qed.

Lemma write_ok (v : Z) (self : PCF8574IO) (b : byte) :
  wf self ->
  0 <= v < 256 ->
  next_reply (_bus self) = Some b ->
  write wraps v self =
    let s := Z.land v (invert (_dirmask self)) in
    (Return tt,
     {| _bus := issue (WriteByte (address self) s) (_bus self);
        address := address self; _dirmask := _dirmask self; _shadow := s |}).
Proof.
  intros Hwf Hv Hb. rewrite (write_eq _ _ Hwf), (uint8_small _ Hv).
  cbv zeta. unfold write_byte. simpl. rewrite Hb. reflexivity.
Qed.

Lemma digital_write_ok (pin : Z) (high : bool) (self : PCF8574IO) (b : byte) :
  wf self ->
  0 <= pin < 8 ->
  next_reply (_bus self) = Some b ->
  digital_write wraps pin high self =
    let v := if high then Z.lor (_shadow self) (Z.shiftl 1 pin)
             else Z.land (_shadow self) (invert (Z.shiftl 1 pin)) in
    let s := Z.land v (invert (_dirmask self)) in
    (Return tt,
     {| _bus := issue (WriteByte (address self) s) (_bus self);
        address := address self; _dirmask := _dirmask self; _shadow := s |}).
Proof.
  intros Hwf Hpin Hb.
  unfold digital_write, digital_write_bulk, bind, get, lift. cbn [keys map fst for_acc getitem].
  apply in_range_iff in Hpin. rewrite Hpin.
  destruct (shl1_range pin Hpin) as [-> Hbit].
  rewrite Z.eqb_refl.
  destruct high.
  - apply (write_ok _ _ b); [exact Hwf | | exact Hb].
    apply lor_range; [apply Hwf | exact Hbit].
  - rewrite (uint8_small _ Hbit), (and_uint8_small _ _ (proj2 Hwf)).
    apply (write_ok _ _ b); [exact Hwf | | exact Hb].
    apply land_range, invert_range.
Qed.

(** ** Construction and a first session *)

Lemma init_eq (bus : nat -> option byte) (addr : Z) :
  __init__ wraps bus addr =
    let self := {| _bus := {| wire := bus; transfers := [ReadByte addr] |};
                   address := addr; _dirmask := 255; _shadow := 0 |} in
    match bus 0%nat with
    | Some b => (Return tt, set_shadow (byte_val b) self)
    | None => (Raise IOError, self)
    end.
Proof.
  unfold __init__, init_attributes, bind, lift, modify, get, read_byte.
  rewrite uint8_small by lia. cbv zeta. unfold next_reply. simpl.
  destruct (bus 0%nat); reflexivity.
Qed.

Lemma init_wf (bus : nat -> option byte) (addr : Z) :
  wf (snd (__init__ wraps bus addr)).
Proof.
  rewrite init_eq. cbv zeta.
  destruct (bus 0%nat) as [b |]; split; simpl;
    try lia; apply byte_val_range.
Qed.

Ltac acknowledged Hbus n b H :=
  match goal with
  | bus : nat -> option byte |- _ =>
      destruct (bus n) as [b |] eqn:H; [| destruct (Hbus _ H)]
  end.

(** C6. Open the port on a bus without transport errors, whatever byte
    the chip returns to the constructor.  [port_mode(True)] leaves the
    shadow at 0x00.  [pin_mode(3, False)] clears direction bit 3 and keeps
    [shadow & directionMask == 0].  [digital_write(3, True)] leaves the
    shadow at 0b00001000 and sends the byte 0x08.  [pin_mode(3, True)]
    sends the byte 0x00 and clears bit 3 of the shadow. *)
Theorem open_configure_write_reconfigure (bus : nat -> option byte) (addr : Z) :
  reliable bus ->
  let p0 := snd (__init__ wraps bus addr) in
  let p1 := snd (port_mode wraps true false false p0) in
  let p2 := snd (pin_mode wraps 3 false false false false p1) in
  let p3 := snd (digital_write wraps 3 true p2) in
  let p4 := snd (pin_mode wraps 3 true false false false p3) in
  fst (__init__ wraps bus addr) = Return tt /\
  (fst (port_mode wraps true false false p0) = Return tt /\
   _shadow p1 = 0) /\
  (fst (pin_mode wraps 3 false false false false p1) = Return tt /\
   Z.testbit (_dirmask p2) 3 = false /\
   Z.land (_shadow p2) (_dirmask p2) = 0) /\
  (fst (digital_write wraps 3 true p2) = Return tt /\
   _shadow p3 = 8 /\
   transfers (_bus p3) = transfers (_bus p2) ++ [WriteByte addr 8]) /\
  (fst (pin_mode wraps 3 true false false false p3) = Return tt /\
   transfers (_bus p4) = transfers (_bus p3) ++ [WriteByte addr 0] /\
   Z.testbit (_shadow p4) 3 = false).
Proof.
  intros Hbus.
  acknowledged Hbus 0%nat b0 H0. acknowledged Hbus 1%nat b1 H1.
  acknowledged Hbus 2%nat b2 H2. acknowledged Hbus 3%nat b3 H3.
  acknowledged Hbus 4%nat b4 H4.
  assert (__init__ wraps bus addr =
            (Return tt,
             {| _bus := {| wire := bus; transfers := [ReadByte addr] |};
                address := addr; _dirmask := 255; _shadow := byte_val b0 |}))
    as E0 by (rewrite init_eq, H0; reflexivity).
  pose proof (init_wf bus addr) as W0.
  rewrite E0 in *. cbn [snd fst] in *.
  assert (port_mode wraps true false false
            {| _bus := {| wire := bus; transfers := [ReadByte addr] |};
               address := addr; _dirmask := 255; _shadow := byte_val b0 |} =
          (Return tt,
           {| _bus := {| wire := bus;
                         transfers := [ReadByte addr; WriteByte addr 0] |};
              address := addr; _dirmask := 255; _shadow := 0 |})) as E1.
  { rewrite (port_mode_ok _ _ _ _ b1 W0 H1). cbv zeta. cbn [_shadow address _bus].
    change (invert 255) with 0. rewrite Z.land_0_r. reflexivity. }
  rewrite E1. cbn [snd fst].
  assert (wf {| _bus := {| wire := bus;
                           transfers := [ReadByte addr; WriteByte addr 0] |};
                address := addr; _dirmask := 255; _shadow := 0 |}) as W1
    by (unfold wf; simpl; lia).
  rewrite (pin_mode_ok 3 false false false _ b2 W1 ltac:(lia) H2).
  cbv zeta. cbn [snd fst _shadow _dirmask address _bus].
  match goal with
  | |- context [digital_write wraps 3 true ?p] =>
      assert (wf p) as W2 by (unfold wf; simpl; vm_compute; repeat split; discriminate);
      rewrite (digital_write_ok 3 true p b3 W2 ltac:(lia) H3)
  end.
  cbv zeta. cbn [snd fst _shadow _dirmask address _bus].
  match goal with
  | |- context [pin_mode wraps 3 true false false false ?p] =>
      assert (wf p) as W3 by (unfold wf; simpl; vm_compute; repeat split; discriminate);
      rewrite (pin_mode_ok 3 true false false p b4 W3 ltac:(lia) H4)
  end.
  cbv zeta. cbn [snd fst _shadow _dirmask address _bus issue transfers].
  repeat split; vm_compute; reflexivity.
Qed.

(** ** Pins outside the port *)

Lemma in_range_outside (p : Z) : ~ 0 <= p < 8 -> in_range p = false.
Proof.
  intros H. destruct (in_range p) eqn:E; [| reflexivity].
  apply in_range_iff in E. contradiction.
Qed.

Lemma digital_write_bulk_empty (self : PCF8574IO) :
  digital_write_bulk wraps [] self = write wraps (_shadow self) self.
Proof. reflexivity. Qed.

(** C7. A pin index [p] outside 0..7 is not an error, and reads and
    writes signal it differently: [digital_write_bulk({p: True})] does
    exactly what [digital_write_bulk({})] does, one bus write of the
    masked shadow, while [digital_read_bulk(p)] yields [{p: None}]. *)
Theorem out_of_range_pin_ignored_or_none (p : Z) (self : PCF8574IO) :
  wf self ->
  ~ 0 <= p < 8 ->
  digital_write_bulk wraps [(p, true)] self = digital_write_bulk wraps [] self /\
  transfers (_bus (snd (digital_write_bulk wraps [(p, true)] self))) =
    transfers (_bus self) ++
    [WriteByte (address self) (Z.land (_shadow self) (Z.lnot (_dirmask self)))] /\
  _shadow (snd (digital_write_bulk wraps [(p, true)] self)) =
    Z.land (_shadow self) (Z.lnot (_dirmask self)) /\
  forall b : byte,
    next_reply (_bus self) = Some b ->
    fst (digital_write_bulk wraps [(p, true)] self) = Return tt /\
    fst (digital_read_bulk wraps [p] self) = Return {[p := None]}.
Proof.
  intros Hwf Hp.
  assert (digital_write_bulk wraps [(p, true)] self =
          write wraps (_shadow self) self) as Hskip.
  { unfold digital_write_bulk, bind, get, lift. cbn [keys map fst for_acc].
    rewrite (in_range_outside p Hp). reflexivity. }
  rewrite Hskip, digital_write_bulk_empty.
  destruct (write_effect (_shadow self) self Hwf (proj2 Hwf))
    as (Hs & _ & Ht & _ & _ & Hret).
  split; [reflexivity |].
  split; [rewrite Ht, Hs; reflexivity |].
  split; [exact Hs |].
  intros b Hb. split.
  - rewrite Hret, Hb. reflexivity.
  - rewrite digital_read_bulk_eq, Hb. simpl.
    rewrite (reading_out_of_range _ p Hp). rewrite insert_empty. reflexivity.
Qed.

(** ** The analog API *)

(** C8, as the code has it. [analog_write(pin, value)] is
    [digital_write(pin, True)] for every value greater than zero, and
    [digital_write(pin, False)] for zero and for every negative value. *)
Theorem analog_write_positive_is_high (pin value : Z) (self : PCF8574IO) :
  (0 < value ->
   analog_write wraps pin value self = digital_write wraps pin true self) /\
  (value <= 0 ->
   analog_write wraps pin value self = digital_write wraps pin false self).
Proof.
  unfold analog_write. split; intros H.
  - apply Z.ltb_lt in H. rewrite H. reflexivity.
  - apply Z.ltb_ge in H. rewrite H. reflexivity.
Qed.

Lemma analog_read_eq (pin : Z) (self : PCF8574IO) :
  analog_read wraps pin self =
    match digital_read wraps pin self with
    | (Return (Some true), self') => (Return 255, self')
    | (Return _, self') => (Return 0, self')
    | (Raise e, self') => (Raise e, self')
    end.
Proof.
  unfold analog_read, bind, ret.
  destruct (digital_read wraps pin self) as [[[[|]|] | e] self']; reflexivity.
Qed.

(** C9. For every pin index, inside the port or not, whenever
    [analog_read(pin)] returns it returns 255 or 0, and it returns 255
    exactly when [digital_read(pin)] returns true; it returns whenever the
    chip answers the read, and does to the object what [digital_read]
    does. *)
Theorem analog_read_255_or_0 (pin : Z) (self : PCF8574IO) :
  (forall v, fst (analog_read wraps pin self) = Return v -> v = 255 \/ v = 0) /\
  (fst (analog_read wraps pin self) = Return 255 <->
   fst (digital_read wraps pin self) = Return (Some true)) /\
  (forall b : byte, next_reply (_bus self) = Some b ->
     exists v, fst (analog_read wraps pin self) = Return v) /\
  snd (analog_read wraps pin self) = snd (digital_read wraps pin self).
Proof.
  rewrite analog_read_eq.
  split; [| split; [| split]].
  - intros v.
    destruct (digital_read wraps pin self) as [[[[|]|] | e] self']; simpl;
      intros [= <-]; auto.
  - destruct (digital_read wraps pin self) as [[[[|]|] | e] self']; simpl;
      split; intros H; try reflexivity; discriminate H.
  - intros b Hb. rewrite digital_read_eq, Hb.
    destruct (reading _ pin) as [[|]|]; eexists; reflexivity.
  - destruct (digital_read wraps pin self) as [[[[|]|] | e] self']; reflexivity.
Qed.

(** C10. For a pin index [p] outside 0..7, when the chip answers the
    read, [digital_read(p)] returns [None], not a boolean, and
    [analog_read(p)] returns 0. *)
Theorem digital_read_out_of_range_is_none (p : Z) (self : PCF8574IO) (b : byte) :
  ~ 0 <= p < 8 ->
  next_reply (_bus self) = Some b ->
  fst (digital_read wraps p self) = Return None /\
  fst (analog_read wraps p self) = Return 0.
Proof.
  intros Hp Hb.
  assert (digital_read wraps p self = (Return None, after_read self)) as Hread.
  { rewrite digital_read_eq, Hb, (reading_out_of_range _ p Hp). reflexivity. }
  rewrite analog_read_eq, Hread. split; reflexivity.
Qed.

(** ** The bit generator *)

Fixpoint pos_bits (p : positive) : list bool :=
  match p with
  | xH => [true]
  | xO q => false :: pos_bits q
  | xI q => true :: pos_bits q
  end.

Lemma pos_digits_bits (p : positive) :
  map (fun bit => Ascii.eqb bit "1"%char) (rev (pos_digits p)) = pos_bits p.
Proof.
  induction p as [q IH | q IH |]; cbn [pos_digits]; [| | reflexivity];
    rewrite rev_app_distr; cbn [rev app map]; rewrite IH; reflexivity.
Qed.

Lemma num2boolgen_pos (p : positive) : num2boolgen (Zpos p) = pos_bits p.
Proof. unfold num2boolgen. cbn [bin app skipn]. apply pos_digits_bits. Qed.

Lemma num2boolgen_neg (p : positive) :
  num2boolgen (Zneg p) = pos_bits p ++ [false].
Proof.
  unfold num2boolgen. cbn [bin app skipn].
  change ("b"%char :: pos_digits p) with (["b"%char] ++ pos_digits p).
  rewrite rev_app_distr, map_app, pos_digits_bits. reflexivity.
Qed.

Lemma pos_bits_testbit (p : positive) (k : nat) :
  nth k (pos_bits p) false = Z.testbit (Zpos p) (Z.of_nat k).
Proof.
  revert k. induction p as [q IH | q IH |]; intros [| k]; try reflexivity.
  - cbn [pos_bits nth]. rewrite IH, Nat2Z.inj_succ, Pos2Z.inj_xI.
    symmetry. apply Z.testbit_odd_succ. lia.
  - cbn [pos_bits nth]. rewrite IH, Nat2Z.inj_succ, Pos2Z.inj_xO.
    symmetry. apply Z.testbit_even_succ. lia.
  - cbn [pos_bits nth]. rewrite Nat2Z.inj_succ.
    destruct k; symmetry; apply (Z.bits_above_log2 1); simpl; lia.
Qed.

Lemma pos_bits_value (p : positive) : bits_value (pos_bits p) = Zpos p.
Proof.
  induction p as [q IH | q IH |]; simpl bits_value; [| | reflexivity];
    rewrite IH; simpl Z.b2z; lia.
Qed.

Lemma pos_bits_length (p : positive) :
  Z.of_nat (length (pos_bits p)) = Z.log2 (Zpos p) + 1.
Proof.
  induction p as [q IH | q IH |]; [| | reflexivity].
  - cbn [pos_bits length]. rewrite Nat2Z.inj_succ, IH, Pos2Z.inj_xI.
    rewrite Z.log2_succ_double by lia. lia.
  - cbn [pos_bits length]. rewrite Nat2Z.inj_succ, IH, Pos2Z.inj_xO.
    rewrite Z.log2_double by lia. lia.
Qed.

Lemma pos_bits_last (p : positive) : last (pos_bits p) = Some true.
Proof.
  induction p as [q IH | q IH |]; [| | reflexivity];
    cbn [pos_bits]; destruct (pos_bits q) eqn:E;
    try (destruct q; discriminate E); exact IH.
Qed.

(** X1. For [num >= 0] the generator yields the bits of [num], least
    significant first: the k-th value is bit [k] of [num], and there is
    no value past the highest set bit (one value, [False], for 0). *)
Theorem num2boolgen_yields_bits (num : Z) :
  0 <= num ->
  (forall k : nat,
     nth k (num2boolgen num) false = Z.testbit num (Z.of_nat k)) /\
  Z.of_nat (length (num2boolgen num)) = Z.max 1 (Z.log2 num + 1) /\
  (0 < num -> last (num2boolgen num) = Some true).
Proof.
  intros Hnum. destruct num as [| p | p]; [| | lia].
  - split; [| split; [reflexivity | lia]].
    intros [| [| k]]; rewrite Z.bits_0; reflexivity.
  - rewrite num2boolgen_pos. split; [| split].
    + intros k. apply pos_bits_testbit.
    + rewrite pos_bits_length.
      pose proof (Z.log2_nonneg (Zpos p)). lia.
    + intros _. apply pos_bits_last.
Qed.

(** X2. Reading the yielded bits back as a binary number, least
    significant first, gives [num] again for every [num >= 0]. *)
Theorem num2boolgen_round_trip (num : Z) :
  0 <= num -> bits_value (num2boolgen num) = num.
Proof.
  intros Hnum. destruct num as [| p | p]; [reflexivity | | lia].
  rewrite num2boolgen_pos. apply pos_bits_value.
Qed.

(** X3. For a negative [num] the slice [[2:]] removes the sign and the
    [0] of the prefix but leaves its [b]: the generator yields the bits
    of [-num] followed by one more [False]. *)
Theorem num2boolgen_negative (num : Z) :
  num < 0 -> num2boolgen num = num2boolgen (- num) ++ [false].
Proof.
  intros Hnum. destruct num as [| p | p]; try lia.
  change (- Z.neg p) with (Z.pos p).
  rewrite num2boolgen_neg, num2boolgen_pos. reflexivity.
Qed.

(** ** What every method does to the bus *)

Lemma extends_refl (n : nat) (self : PCF8574IO) : extends_by n self self.
Proof.
  split; [reflexivity | split; [reflexivity |]].
  exists []. rewrite app_nil_r. split; [reflexivity | split; [simpl; lia | constructor]].
Qed.

Lemma extends_trans (n k : nat) (s1 s2 s3 : PCF8574IO) :
  extends_by n s1 s2 -> extends_by k s2 s3 -> extends_by (n + k) s1 s3.
Proof.
  intros (Ha & Hw & l & Hl & Hn & Hf) (Ha' & Hw' & l' & Hl' & Hk & Hf').
  split; [congruence | split; [congruence |]].
  exists (l ++ l'). split; [rewrite Hl', Hl, app_assoc; reflexivity |].
  split; [rewrite length_app; lia |].
  apply Forall_app. split; [exact Hf |]. rewrite <- Ha. exact Hf'.
Qed.

Lemma extends_weaken (n k : nat) (s1 s2 : PCF8574IO) :
  (n <= k)%nat -> extends_by n s1 s2 -> extends_by k s1 s2.
Proof.
  intros Hle (Ha & Hw & l & Hl & Hn & Hf).
  split; [exact Ha | split; [exact Hw |]].
  exists l. split; [exact Hl | split; [lia | exact Hf]].
Qed.

Lemma extends_issue (t : transfer) (self : PCF8574IO) :
  transfer_address t = address self ->
  extends_by 1 self (set_bus (issue t (_bus self)) self).
Proof.
  intros Ht. split; [reflexivity | split; [reflexivity |]].
  exists [t]. split; [reflexivity | split; [simpl; lia |]].
  constructor; [exact Ht | constructor].
Qed.

Lemma write_extends (value : Z) (self : PCF8574IO) :
  extends_by 1 self (snd (write wraps value self)).
Proof.
  unfold write, bind, get, lift.
  destruct (uint8 wraps (_dirmask self)) as [d |]; [| apply extends_refl].
  destruct (and_uint8 wraps value (invert d)) as [s |]; [| apply extends_refl].
  cbn [modify]. rewrite write_byte_state.
  apply (extends_issue (WriteByte (address self) s) (set_shadow s self)).
  reflexivity.
Qed.

Lemma poweroff_extends (self : PCF8574IO) :
  extends_by 1 self (snd (_poweroff_inputs wraps self)).
Proof. unfold _poweroff_inputs, bind, get. apply write_extends. Qed.

Lemma pin_mode_extends (pin : Z) (input pullup pulldown localonly : bool)
    (self : PCF8574IO) :
  extends_by (if localonly then 0 else 1) self
    (snd (pin_mode wraps pin input pullup pulldown localonly self)).
Proof.
  rewrite pin_mode_eq.
  destruct (shl1 pin) as [bit |]; [| apply extends_refl].
  destruct (uint8 wraps bit) as [m |]; [| apply extends_refl].
  cbv zeta. destruct localonly.
  - apply (extends_refl 0 self).
  - match goal with
    | |- extends_by _ _ (snd (_poweroff_inputs wraps ?s)) =>
        exact (poweroff_extends s)
    end.
Qed.

Lemma bind_extends {A B} (n k : nat) (m : Py A) (f : A -> Py B)
    (self : PCF8574IO) :
  extends_by n self (snd (m self)) ->
  (forall a s, extends_by k s (snd (f a s))) ->
  extends_by (n + k) self (snd (bind m f self)).
Proof.
  intros Hm Hf. unfold bind.
  destruct (m self) as [[a | e] self']; simpl in *.
  - eapply extends_trans; [exact Hm | apply Hf].
  - eapply extends_weaken; [| exact Hm]. lia.
Qed.

Lemma for_in_silent {A} (xs : list A) (body : A -> Py unit) :
  (forall x s, extends_by 0 s (snd (body x s))) ->
  forall self, extends_by 0 self (snd (for_in xs body self)).
Proof.
  intros Hbody. induction xs as [| x rest IH]; intros self; simpl.
  - apply extends_refl.
  - apply (bind_extends 0 0); [apply Hbody | intros _ s; apply IH].
Qed.

Lemma pin_mode_bulk_extends (pins : list (Z * (bool * list bool)))
    (self : PCF8574IO) :
  extends_by 1 self (snd (pin_mode_bulk wraps pins self)).
Proof.
  unfold pin_mode_bulk. apply (bind_extends 0 1).
  - apply for_in_silent. intros pin s.
    apply (bind_extends 0 0); [apply extends_refl |].
    intros mode s'. apply (pin_mode_extends pin (fst mode) false false true).
  - intros _ s. apply poweroff_extends.
Qed.

Lemma digital_write_bulk_extends (pins : list (Z * bool)) (self : PCF8574IO) :
  extends_by 1 self (snd (digital_write_bulk wraps pins self)).
Proof.
  destruct (digital_write_bulk_eq pins self) as [[v | e] ->];
    [apply write_extends | apply extends_refl].
Qed.

Lemma exec_extends (c : call) (self : PCF8574IO) :
  extends_by 1 self (snd (exec wraps c self)).
Proof.
  destruct c; simpl.
  - eapply extends_weaken; [| apply pin_mode_extends]. destruct localonly; lia.
  - rewrite port_mode_eq.
    match goal with
    | |- extends_by _ _ (snd (_poweroff_inputs wraps ?s)) =>
        exact (poweroff_extends s)
    end.
  - apply pin_mode_bulk_extends.
  - apply write_extends.
  - apply digital_write_bulk_extends.
  - apply digital_write_bulk_extends.
Qed.

Lemma after_read_extends (self : PCF8574IO) :
  extends_by 1 self (after_read self).
Proof. apply (extends_issue (ReadByte (address self)) self). reflexivity. Qed.

Lemma read_state (self : PCF8574IO) :
  snd (read wraps self) = after_read self.
Proof. rewrite read_eq. destruct (next_reply (_bus self)); reflexivity. Qed.

Lemma digital_read_bulk_state (pins : list Z) (self : PCF8574IO) :
  snd (digital_read_bulk wraps pins self) = after_read self.
Proof.
  rewrite digital_read_bulk_eq. destruct (next_reply (_bus self)); reflexivity.
Qed.

Lemma digital_read_state (pin : Z) (self : PCF8574IO) :
  snd (digital_read wraps pin self) = after_read self.
Proof.
  rewrite digital_read_eq. destruct (next_reply (_bus self)); reflexivity.
Qed.

Lemma analog_read_state (pin : Z) (self : PCF8574IO) :
  snd (analog_read wraps pin self) = after_read self.
Proof.
  rewrite analog_read_eq, <- (digital_read_state pin).
  destruct (digital_read wraps pin self) as [[[[|]|] | e] self']; reflexivity.
Qed.

Lemma serve_extends (r : request) (self : PCF8574IO) :
  extends_by 1 self (serve wraps r self).
Proof.
  destruct r; simpl.
  - apply exec_extends.
  - rewrite read_state. apply after_read_extends.
  - rewrite digital_read_state. apply after_read_extends.
  - rewrite digital_read_bulk_state. apply after_read_extends.
  - rewrite analog_read_state. apply after_read_extends.
  - apply digital_write_bulk_extends.
Qed.

Lemma serve_wf (r : request) (self : PCF8574IO) :
  wf self -> wf (serve wraps r self).
Proof.
  intros Hwf. destruct r; simpl;
    rewrite ?read_state, ?digital_read_state, ?digital_read_bulk_state,
            ?analog_read_state; try exact Hwf.
  - apply exec_wf, Hwf.
  - apply (exec_wf (DigitalWrite pin (0 <? value))), Hwf.
Qed.

Lemma session_extends (rs : list request) (self : PCF8574IO) :
  extends_by (length rs) self (session wraps rs self).
Proof.
  revert self. induction rs as [| r rs IH]; intros self; simpl.
  - apply extends_refl.
  - apply (extends_trans 1 (length rs) self (serve wraps r self));
      [apply serve_extends | apply IH].
Qed.

Lemma session_wf (rs : list request) (self : PCF8574IO) :
  wf self -> wf (session wraps rs self).
Proof.
  revert self. induction rs as [| r rs IH]; intros self Hwf; simpl.
  - exact Hwf.
  - apply IH, serve_wf, Hwf.
Qed.

(** X4. Whatever requests are made of a port after its construction, in
    any number and order, returning or raising, the direction mask and
    the shadow stay 8-bit values. *)
Theorem attributes_stay_eight_bit
    (bus : nat -> option byte) (addr : Z) (rs : list request) :
  let self := session wraps rs (snd (__init__ wraps bus addr)) in
  0 <= _dirmask self < 256 /\ 0 <= _shadow self < 256.
Proof. apply session_wf, init_wf. Qed.

(** X5. A port never talks to another device: after any requests the
    [address] attribute is still the one given to the constructor, and
    every transfer on the bus, the constructor's included, went to it. *)
Theorem every_transfer_goes_to_the_device
    (bus : nat -> option byte) (addr : Z) (rs : list request) :
  let self := session wraps rs (snd (__init__ wraps bus addr)) in
  address self = addr /\
  Forall (fun t => transfer_address t = addr) (transfers (_bus self)).
Proof.
  cbv zeta.
  destruct (session_extends rs (snd (__init__ wraps bus addr)))
    as (Ha & _ & l & Hl & _ & Hf).
  assert (address (snd (__init__ wraps bus addr)) = addr /\
          transfers (_bus (snd (__init__ wraps bus addr))) = [ReadByte addr])
    as [Haddr Hlog].
  { rewrite init_eq. cbv zeta. destruct (bus 0%nat); split; reflexivity. }
  rewrite Haddr in *. split; [exact Ha |].
  rewrite Hl, Hlog. constructor; [reflexivity | exact Hf].
Qed.

(** X6. Every request costs at most one bus transfer and none is ever
    taken back: the log after [n] requests is the log before, followed by
    at most [n] transfers. *)
Theorem at_most_one_transfer_per_request
    (rs : list request) (self : PCF8574IO) :
  exists l,
    transfers (_bus (session wraps rs self)) = transfers (_bus self) ++ l /\
    (length l <= length rs)%nat.
Proof.
  destruct (session_extends rs self) as (_ & _ & l & Hl & Hn & _).
  exists l. split; assumption.
Qed.

(** ** Direction configuration, bit by bit *)

Lemma in8 (i : Z) : 0 <= i < 8 -> (0 <=? i) && (i <? 8) = true.
Proof. intros [H0 H8]. apply andb_true_iff. rewrite Z.leb_le, Z.ltb_lt. lia. Qed.

Lemma direction_bit (input : bool) (d pin i : Z) :
  0 <= d < 256 -> 0 <= pin < 8 ->
  Z.testbit (if input then Z.lor d (Z.shiftl 1 pin)
             else Z.land d (invert (Z.shiftl 1 pin))) i =
    if i =? pin then input else Z.testbit d i.
Proof.
  intros Hd Hpin. destruct input.
  - rewrite Z.lor_spec, testbit_shl1 by lia.
    destruct (i =? pin); [apply orb_true_r | apply orb_false_r].
  - rewrite Z.land_spec, testbit_invert, testbit_shl1 by lia.
    destruct (Z.eqb_spec i pin) as [-> | Hne]; simpl; [apply andb_false_r |].
    destruct (Z.testbit d i) eqn:Hbit; [| reflexivity]. simpl.
    destruct (Z.leb_spec 0 i); destruct (Z.ltb_spec i 8); try reflexivity;
      rewrite (testbit_outside_u8 d i Hd) in Hbit by lia; discriminate.
Qed.

Lemma poweroff_state (self : PCF8574IO) :
  wf self ->
  snd (_poweroff_inputs wraps self) =
    let s := Z.land (_shadow self) (invert (_dirmask self)) in
    {| _bus := issue (WriteByte (address self) s) (_bus self);
       address := address self; _dirmask := _dirmask self; _shadow := s |}.
Proof.
  intros Hwf. rewrite (poweroff_eq _ Hwf). cbv zeta.
  rewrite write_byte_state. reflexivity.
Qed.

Lemma pin_mode_state (pin : Z) (input pullup pulldown localonly : bool)
    (self : PCF8574IO) :
  wf self ->
  0 <= pin < 8 ->
  snd (pin_mode wraps pin input pullup pulldown localonly self) =
    let d := if input then Z.lor (_dirmask self) (Z.shiftl 1 pin)
             else Z.land (_dirmask self) (invert (Z.shiftl 1 pin)) in
    if localonly then set_dirmask d self
    else
      let s := Z.land (_shadow self) (invert d) in
      {| _bus := issue (WriteByte (address self) s) (_bus self);
         address := address self; _dirmask := d; _shadow := s |}.
Proof.
  intros Hwf Hpin. rewrite pin_mode_eq.
  apply in_range_iff in Hpin. destruct (shl1_range pin Hpin) as [-> Hbit].
  rewrite (uint8_small _ Hbit). cbv zeta.
  destruct localonly; [reflexivity |].
  rewrite poweroff_state; [reflexivity |].
  apply set_dirmask_wf; [| exact Hwf].
  apply pin_mode_dirmask_range; [apply Hwf | exact Hbit].
Qed.

(** X7. [pin_mode(pin, input)] on a pin 0..7 makes direction bit [pin]
    equal to [input] and changes no other direction bit, with or
    without [localonly]. *)
Theorem pin_mode_sets_one_direction_bit
    (pin : Z) (input pullup pulldown localonly : bool) (self : PCF8574IO) :
  wf self ->
  0 <= pin < 8 ->
  forall i,
    Z.testbit
      (_dirmask (snd (pin_mode wraps pin input pullup pulldown localonly self))) i =
    if i =? pin then input else Z.testbit (_dirmask self) i.
Proof.
  intros Hwf Hpin i. rewrite (pin_mode_state _ _ _ _ _ _ Hwf Hpin). cbv zeta.
  destruct localonly; simpl; apply direction_bit; [apply Hwf | exact Hpin | apply Hwf | exact Hpin].
Qed.

(** X8. [pin_mode] with [localonly=True] never touches the chip: for
    every pin and whatever it returns or raises, no transfer is issued
    and the shadow is left as it was. *)
Theorem pin_mode_localonly_is_silent
    (pin : Z) (input pullup pulldown : bool) (self : PCF8574IO) :
  _bus (snd (pin_mode wraps pin input pullup pulldown true self)) = _bus self /\
  _shadow (snd (pin_mode wraps pin input pullup pulldown true self)) =
    _shadow self /\
  address (snd (pin_mode wraps pin input pullup pulldown true self)) =
    address self.
Proof.
  rewrite pin_mode_eq.
  destruct (shl1 pin) as [bit |]; [| repeat split].
  destruct (uint8 wraps bit) as [m |]; repeat split.
Qed.

Lemma shl1_wraps_to_zero (pin : Z) :
  8 <= pin -> ~ 0 <= Z.shiftl 1 pin < 256 /\ Z.shiftl 1 pin mod 256 = 0.
Proof.
  intros Hpin. rewrite Z.shiftl_1_l.
  replace pin with ((pin - 8) + 8) by lia.
  rewrite Z.pow_add_r by lia. change (2 ^ 8) with 256. split.
  - assert (0 < 2 ^ (pin - 8)) by (apply Z.pow_pos_nonneg; lia). lia.
  - apply Z_mod_mult.
Qed.

(** X9. A pin outside 0..7 never changes the direction mask.  A negative
    pin raises [ValueError] and leaves the object and the bus untouched; a
    pin above 7 either raises as well or, where numpy wraps [1 << pin] to
    0, goes through with the mask as it was. *)
Theorem pin_mode_out_of_range_keeps_mask
    (pin : Z) (input pullup pulldown localonly : bool) (self : PCF8574IO) :
  wf self ->
  ~ 0 <= pin < 8 ->
  _dirmask (snd (pin_mode wraps pin input pullup pulldown localonly self)) =
    _dirmask self /\
  (pin < 0 ->
   pin_mode wraps pin input pullup pulldown localonly self =
     (Raise ValueError, self)).
Proof.
  intros Hwf Hpin. rewrite pin_mode_eq. unfold shl1.
  destruct (Z.ltb_spec pin 0) as [Hneg | Hpos].
  - split; reflexivity.
  - split; [| lia].
    destruct (shl1_wraps_to_zero pin ltac:(lia)) as [Hbig Hzero].
    unfold uint8.
    destruct ((0 <=? Z.shiftl 1 pin) && (Z.shiftl 1 pin <? 256)) eqn:Hfit.
    { apply andb_true_iff in Hfit as [H0 H1].
      apply Z.leb_le in H0. apply Z.ltb_lt in H1. lia. }
    destruct (wraps (Z.shiftl 1 pin)); [| reflexivity].
    rewrite Hzero. cbv zeta.
    assert ((if input then Z.lor (_dirmask self) 0
             else Z.land (_dirmask self) (invert 0)) = _dirmask self) as ->.
    { destruct input; [apply Z.lor_0_r |].
      change (invert 0) with 255. apply u8_iff, Hwf. }
    assert (set_dirmask (_dirmask self) self = self) as ->
      by (destruct self; reflexivity).
    destruct localonly; [reflexivity |].
    rewrite (poweroff_state _ Hwf). reflexivity.
Qed.

Lemma masked_land_invert (s d : Z) :
  0 <= s < 256 -> Z.land s d = 0 -> Z.land s (invert d) = s.
Proof.
  intros Hs Hmask. apply Z.bits_inj'. intros i Hi.
  rewrite Z.land_spec, testbit_invert.
  destruct (Z.testbit s i) eqn:Hbit; [| reflexivity].
  assert (Z.testbit d i = false) as ->.
  { apply (f_equal (fun z => Z.testbit z i)) in Hmask.
    rewrite Z.land_spec, Hbit, Z.bits_0 in Hmask. exact Hmask. }
  destruct (Z_lt_dec i 8) as [H8 | H8].
  - rewrite in8 by lia. reflexivity.
  - rewrite (testbit_outside_u8 s i Hs) in Hbit by lia. discriminate.
Qed.

(** X10. On a port whose shadow is masked, synchronising again is
    harmless: [_poweroff_inputs] sends the shadow as it is, in one bus
    write, and changes neither the shadow nor the direction mask. *)
Theorem poweroff_inputs_resends_shadow (self : PCF8574IO) :
  wf self ->
  Z.land (_shadow self) (_dirmask self) = 0 ->
  snd (_poweroff_inputs wraps self) =
    set_bus (issue (WriteByte (address self) (_shadow self)) (_bus self)) self.
Proof.
  intros Hwf Hmask. rewrite (poweroff_state _ Hwf). cbv zeta.
  rewrite (masked_land_invert _ _ (proj2 Hwf) Hmask).
  destruct self; reflexivity.
Qed.

(** X11. The level of an output does not survive a change of direction:
    once a pin 0..7 has been made an input, its shadow bit is 0, and it is
    still 0 after the pin has been made an output again. *)
Theorem pin_comes_back_low
    (pin : Z) (pullup pulldown pullup' pulldown' : bool) (self : PCF8574IO) :
  wf self ->
  0 <= pin < 8 ->
  let as_input := snd (pin_mode wraps pin true pullup pulldown false self) in
  let as_output :=
    snd (pin_mode wraps pin false pullup' pulldown' false as_input) in
  Z.testbit (_shadow as_input) pin = false /\
  Z.testbit (_dirmask as_output) pin = false /\
  Z.testbit (_shadow as_output) pin = false.
Proof.
  intros Hwf Hpin as_input as_output.
  assert (wf as_input) as Hwf1 by apply pin_mode_wf, Hwf.
  assert (Z.testbit (_shadow as_input) pin = false) as Hlow.
  { unfold as_input. rewrite (pin_mode_state _ _ _ _ _ _ Hwf Hpin). cbv zeta.
    cbn [_shadow]. rewrite Z.land_spec, testbit_invert, Z.lor_spec.
    rewrite testbit_shl1, Z.eqb_refl by lia.
    rewrite orb_true_r. apply andb_false_r. }
  split; [exact Hlow | split].
  - unfold as_output. rewrite (pin_mode_state _ _ _ _ _ _ Hwf1 Hpin). cbv zeta.
    cbn [_dirmask]. rewrite (direction_bit false) by (apply Hwf1 || exact Hpin).
    rewrite Z.eqb_refl. reflexivity.
  - unfold as_output. rewrite (pin_mode_state _ _ _ _ _ _ Hwf1 Hpin). cbv zeta.
    cbn [_shadow]. rewrite Z.land_spec, Hlow. reflexivity.
Qed.

(** ** Configuring several pins at once *)

Lemma for_in_app {A} (xs ys : list A) (body : A -> Py unit)
    (self : PCF8574IO) :
  for_in (xs ++ ys) body self =
    bind (for_in xs body) (fun _ => for_in ys body) self.
Proof.
  revert self. induction xs as [| x rest IH]; intros self; simpl.
  - reflexivity.
  - unfold bind in *.
    destruct (body x self) as [[[] | e] self']; [apply IH | reflexivity].
Qed.

Lemma getitem_app_l {V} (d d' : list (Z * V)) (k : Z) :
  In k (keys d) -> getitem (d ++ d') k = getitem d k.
Proof.
  induction d as [| [k0 v0] rest IH]; simpl; [intros [] |].
  intros Hin. destruct (Z.eqb_spec k0 k) as [-> | Hne]; [reflexivity |].
  destruct Hin as [-> | Hin]; [contradiction | apply IH, Hin].
Qed.

Lemma getitem_app_r {V} (d d' : list (Z * V)) (k : Z) :
  ~ In k (keys d) -> getitem (d ++ d') k = getitem d' k.
Proof.
  induction d as [| [k0 v0] rest IH]; simpl; [reflexivity |].
  intros Hout. destruct (Z.eqb_spec k0 k) as [-> | Hne].
  - contradiction Hout. left. reflexivity.
  - apply IH. intros H. apply Hout. right. exact H.
Qed.

Lemma existsb_keys {V} (d : list (Z * V)) (k : Z) :
  existsb (Z.eqb k) (keys d) = true <-> In k (keys d).
Proof.
  rewrite existsb_exists. split.
  - intros (x & Hin & Heq). apply Z.eqb_eq in Heq. subst. exact Hin.
  - intros Hin. exists k. split; [exact Hin | apply Z.eqb_refl].
Qed.

Lemma pin_mode_local_ok (pin : Z) (input pullup pulldown : bool)
    (self : PCF8574IO) :
  0 <= pin < 8 ->
  pin_mode wraps pin input pullup pulldown true self =
    (Return tt,
     set_dirmask (if input then Z.lor (_dirmask self) (Z.shiftl 1 pin)
                  else Z.land (_dirmask self) (invert (Z.shiftl 1 pin))) self).
Proof.
  intros Hpin. rewrite pin_mode_eq.
  apply in_range_iff in Hpin. destruct (shl1_range pin Hpin) as [-> Hbit].
  rewrite (uint8_small _ Hbit). reflexivity.
Qed.

(** The loop of [pin_mode_bulk] over pins inside the port. *)
Lemma pin_mode_bulk_loop (pins : list (Z * (bool * list bool))) (ks : list Z) :
  (forall k, In k ks ->
     0 <= k < 8 /\ exists mode, getitem pins k = Return mode) ->
  forall self, wf self ->
  exists d,
    0 <= d < 256 /\
    for_in ks (fun pin =>
      mode <- lift (getitem pins pin) ;;
      pin_mode wraps pin (fst mode) false false true) self =
      (Return tt, set_dirmask d self) /\
    forall i,
      Z.testbit d i =
        if existsb (Z.eqb i) ks
        then match getitem pins i with
             | Return mode => fst mode
             | Raise _ => false
             end
        else Z.testbit (_dirmask self) i.
Proof.
  induction ks as [| k rest IH]; intros Hks self Hwf.
  - exists (_dirmask self). split; [apply Hwf | split].
    + simpl. unfold ret. destruct self; reflexivity.
    + intros i. reflexivity.
  - destruct (Hks k (or_introl eq_refl)) as [Hk [mode Hmode]].
    assert (forall k', In k' rest ->
              0 <= k' < 8 /\ exists mode, getitem pins k' = Return mode)
      as Hrest by (intros k' H; apply Hks; right; exact H).
    set (d1 := if fst mode then Z.lor (_dirmask self) (Z.shiftl 1 k)
               else Z.land (_dirmask self) (invert (Z.shiftl 1 k))).
    assert (0 <= d1 < 256) as Hd1.
    { apply pin_mode_dirmask_range; [apply Hwf |].
      apply shl1_range, in_range_iff, Hk. }
    destruct (IH Hrest (set_dirmask d1 self)
                (set_dirmask_wf d1 self Hd1 Hwf)) as (d & Hd & Hloop & Hbits).
    exists d. split; [exact Hd | split].
    + cbn [for_in]. unfold bind at 1. unfold bind at 1, lift at 1.
      rewrite Hmode, (pin_mode_local_ok _ _ _ _ _ Hk).
      fold d1. rewrite Hloop. reflexivity.
    + intros i. rewrite Hbits. cbn [existsb _dirmask set_dirmask].
      unfold d1. rewrite (direction_bit (fst mode)) by (apply Hwf || exact Hk).
      destruct (Z.eqb_spec i k) as [-> | Hne]; [| reflexivity].
      rewrite Hmode. simpl. destruct (existsb (Z.eqb k) rest); reflexivity.
Qed.

Lemma bulk_direction_bits (pins : list (Z * (bool * list bool))) (d0 d i : Z) :
  Z.testbit d i =
    (if existsb (Z.eqb i) (keys pins)
     then match getitem pins i with
          | Return mode => fst mode
          | Raise _ => false
          end
     else Z.testbit d0 i) ->
  Z.testbit d i = bulk_direction_bit pins d0 i.
Proof.
  intros ->. unfold bulk_direction_bit.
  destruct (existsb (Z.eqb i) (keys pins)) eqn:Hex.
  - apply existsb_keys in Hex. destruct (getitem_key pins i Hex) as [mode ->].
    reflexivity.
  - rewrite (getitem_no_key _ _ Hex). reflexivity.
Qed.

(** X12. [pin_mode_bulk(pins)] with every pin inside 0..7 sets each
    direction bit the mapping mentions to its flag, leaves the others,
    and then synchronises once: exactly one bus write, of the shadow
    masked with the new direction mask; it returns when the chip
    acknowledges that write. *)
Theorem pin_mode_bulk_one_write
    (pins : list (Z * (bool * list bool))) (self : PCF8574IO) :
  wf self ->
  (forall k, In k (keys pins) -> 0 <= k < 8) ->
  exists d,
    (forall i, Z.testbit d i = bulk_direction_bit pins (_dirmask self) i) /\
    _dirmask (snd (pin_mode_bulk wraps pins self)) = d /\
    transfers (_bus (snd (pin_mode_bulk wraps pins self))) =
      transfers (_bus self) ++
      [WriteByte (address self) (Z.land (_shadow self) (Z.lnot d))] /\
    _shadow (snd (pin_mode_bulk wraps pins self)) =
      Z.land (_shadow self) (Z.lnot d) /\
    (forall b : byte, next_reply (_bus self) = Some b ->
       fst (pin_mode_bulk wraps pins self) = Return tt).
Proof.
  intros Hwf Hkeys.
  destruct (pin_mode_bulk_loop pins (keys pins)
              (fun k H => conj (Hkeys k H) (getitem_key pins k H)) self Hwf)
    as (d & Hd & Hloop & Hbits).
  exists d. split; [intros i; apply bulk_direction_bits, Hbits |].
  assert (wf (set_dirmask d self)) as Hwf' by (apply set_dirmask_wf; assumption).
  assert (pin_mode_bulk wraps pins self =
          _poweroff_inputs wraps (set_dirmask d self)) as ->.
  { unfold pin_mode_bulk. unfold bind at 1. rewrite Hloop. reflexivity. }
  rewrite (poweroff_state _ Hwf'). cbv zeta.
  cbn [_dirmask _shadow _bus address set_dirmask issue transfers].
  rewrite (land_invert_lnot _ d (proj2 Hwf)).
  repeat split.
  intros b Hb. rewrite (poweroff_ok _ b Hwf' Hb). reflexivity.
Qed.

(** X13. [pin_mode_bulk] is not all-or-nothing.  When the mapping holds
    a negative pin after entries for pins 0..7, the call raises
    [ValueError] with the direction bits of those earlier entries
    already changed, nothing sent to the chip and the shadow not
    re-masked. *)
Theorem pin_mode_bulk_stops_at_negative_pin
    (good rest : list (Z * (bool * list bool))) (p : Z)
    (mode : bool * list bool) (self : PCF8574IO) :
  wf self ->
  (forall k, In k (keys good) -> 0 <= k < 8) ->
  p < 0 ->
  exists d,
    (forall i, Z.testbit d i = bulk_direction_bit good (_dirmask self) i) /\
    pin_mode_bulk wraps (good ++ (p, mode) :: rest) self =
      (Raise ValueError, set_dirmask d self).
Proof.
  intros Hwf Hkeys Hp.
  set (pins := good ++ (p, mode) :: rest).
  assert (forall k, In k (keys good) ->
            0 <= k < 8 /\ exists m, getitem pins k = Return m) as Hgood.
  { intros k Hk. split; [apply Hkeys, Hk |].
    unfold pins. rewrite (getitem_app_l _ _ _ Hk). apply getitem_key, Hk. }
  destruct (pin_mode_bulk_loop pins (keys good) Hgood self Hwf)
    as (d & Hd & Hloop & Hbits).
  exists d. split.
  - intros i. apply bulk_direction_bits. rewrite Hbits.
    destruct (existsb (Z.eqb i) (keys good)) eqn:Hex; [| reflexivity].
    apply existsb_keys in Hex. unfold pins.
    rewrite (getitem_app_l _ _ _ Hex). reflexivity.
  - assert (getitem pins p = Return mode) as Hmode.
    { unfold pins. rewrite getitem_app_r.
      - simpl. rewrite Z.eqb_refl. reflexivity.
      - intros Hin. apply Hkeys in Hin. lia. }
    unfold pin_mode_bulk. fold pins.
    assert (keys pins = keys good ++ p :: keys rest) as ->
      by (unfold pins, keys; rewrite map_app; reflexivity).
    unfold bind at 1. rewrite for_in_app. unfold bind at 1.
    rewrite Hloop. cbn [for_in]. unfold bind at 1. unfold bind at 1, lift at 1.
    rewrite Hmode, pin_mode_eq. unfold shl1.
    apply Z.ltb_lt in Hp. rewrite Hp. reflexivity.
Qed.

(** ** Reading pins *)

(** X14. When the chip answers, [digital_read] of a pin 0..7 is true
    exactly when the pin is configured as input and its line is high
    in the byte read: an input pin reads as the chip reports it. *)
Theorem digital_read_is_direction_and_line
    (pin : Z) (self : PCF8574IO) (b : byte) :
  0 <= pin < 8 ->
  next_reply (_bus self) = Some b ->
  fst (digital_read wraps pin self) =
    Return (Some (Z.testbit (_dirmask self) pin && Z.testbit (byte_val b) pin)).
Proof.
  intros Hpin Hb. rewrite digital_read_eq, Hb. simpl.
  rewrite (reading_in_range _ _ Hpin), Z.land_spec. reflexivity.
Qed.

(** X15. The mapping [digital_read_bulk] returns depends only on which
    pins are requested: asking for a pin twice, or for the same pins in
    another order, gives the same outcome and leaves the same object. *)
Theorem digital_read_bulk_ignores_order_and_repeats
    (pins pins' : list Z) (self : PCF8574IO) :
  (forall p, In p pins <-> In p pins') ->
  digital_read_bulk wraps pins self = digital_read_bulk wraps pins' self.
Proof.
  intros Hsame. rewrite !digital_read_bulk_eq.
  destruct (next_reply (_bus self)) as [b |]; [| reflexivity].
  f_equal. f_equal. apply map_eq. intros p.
  destruct (in_dec Z.eq_dec p pins) as [Hin | Hout].
  - rewrite !bulk_lookup_requested; [reflexivity | apply Hsame, Hin | exact Hin].
  - rewrite !bulk_lookup_other; [reflexivity | | exact Hout].
    intros Hin. apply Hout, Hsame, Hin.
Qed.

(** X16. The reading methods only read: [digital_read_bulk],
    [digital_read] and [analog_read] each leave the object as it was but
    for one more bus read of the device address in the log; the shadow
    and the direction mask are not modified and nothing is written. *)
Theorem reading_leaves_the_port_alone
    (pins : list Z) (pin : Z) (self : PCF8574IO) :
  snd (digital_read_bulk wraps pins self) = after_read self /\
  snd (digital_read wraps pin self) = after_read self /\
  snd (analog_read wraps pin self) = after_read self /\
  _shadow (after_read self) = _shadow self /\
  _dirmask (after_read self) = _dirmask self /\
  transfers (_bus (after_read self)) =
    transfers (_bus self) ++ [ReadByte (address self)].
Proof.
  rewrite digital_read_bulk_state, digital_read_state, analog_read_state.
  repeat split.
Qed.

(** ** Writing pins *)

Lemma write_same_masked (v v' : Z) (self : PCF8574IO) :
  wf self -> 0 <= v < 256 -> 0 <= v' < 256 ->
  Z.land v (invert (_dirmask self)) = Z.land v' (invert (_dirmask self)) ->
  write wraps v self = write wraps v' self.
Proof.
  intros Hwf Hv Hv' Heq.
  rewrite !(write_eq _ _ Hwf), (uint8_small _ Hv), (uint8_small _ Hv').
  cbv zeta. rewrite Heq. reflexivity.
Qed.

Lemma digital_write_bulk_shadow_bits
    (pins : list (Z * bool)) (self : PCF8574IO) (i : Z) :
  wf self ->
  Z.testbit (_shadow (snd (digital_write_bulk wraps pins self))) i =
    bulk_bit pins (_shadow self) i && negb (Z.testbit (_dirmask self) i).
Proof.
  intros Hwf.
  destruct (digital_write_bulk_value pins self Hwf) as (v & Hv & Hbits & ->).
  destruct (write_effect v self Hwf Hv) as (Hs & _).
  rewrite Hs. destruct (Z.leb_spec 0 i) as [Hi | Hi].
  - rewrite Z.land_spec, Z.lnot_spec, Hbits by exact Hi. reflexivity.
  - rewrite Z.testbit_neg_r by exact Hi. unfold bulk_bit.
    rewrite in_range_outside by lia.
    rewrite (Z.testbit_neg_r (_shadow self)) by exact Hi. reflexivity.
Qed.

Lemma digital_write_bulk_log (pins : list (Z * bool)) (self : PCF8574IO) :
  wf self ->
  transfers (_bus (snd (digital_write_bulk wraps pins self))) =
    transfers (_bus self) ++
    [WriteByte (address self)
       (_shadow (snd (digital_write_bulk wraps pins self)))].
Proof.
  intros Hwf.
  destruct (digital_write_bulk_value pins self Hwf) as (v & Hv & _ & ->).
  apply (write_effect v self Hwf Hv).
Qed.

(** X17. After [digital_write_bulk(pins)] bit [i] of the shadow, which is
    the byte just sent, is set exactly when pin [i] is an output and
    either the mapping asks for it high or, the mapping not mentioning
    it, the shadow had it set. *)
Theorem digital_write_bulk_drives_outputs_only
    (pins : list (Z * bool)) (self : PCF8574IO) :
  wf self ->
  let self' := snd (digital_write_bulk wraps pins self) in
  (forall i, Z.testbit (_shadow self') i =
             bulk_bit pins (_shadow self) i &&
             negb (Z.testbit (_dirmask self) i)) /\
  transfers (_bus self') =
    transfers (_bus self) ++ [WriteByte (address self) (_shadow self')].
Proof.
  intros Hwf. cbv zeta. split.
  - intros i. apply digital_write_bulk_shadow_bits, Hwf.
  - apply digital_write_bulk_log, Hwf.
Qed.

(** X18. Writing to a pin configured as input changes nothing on the
    line: for a pin 0..7 whose direction bit is 1, [digital_write(pin,
    high)] is the same call as [_poweroff_inputs()], whatever [high]. *)
Theorem digital_write_to_input_is_a_sync
    (pin : Z) (high : bool) (self : PCF8574IO) :
  wf self ->
  0 <= pin < 8 ->
  Z.testbit (_dirmask self) pin = true ->
  digital_write wraps pin high self = _poweroff_inputs wraps self.
Proof.
  intros Hwf Hpin Hin. unfold digital_write.
  destruct (digital_write_bulk_value [(pin, high)] self Hwf)
    as (v & Hv & Hbits & ->).
  unfold _poweroff_inputs, bind, get.
  apply (write_same_masked _ _ _ Hwf Hv (proj2 Hwf)).
  apply Z.bits_inj'. intros i Hi.
  rewrite !Z.land_spec, testbit_invert, Hbits. unfold bulk_bit.
  destruct (in_range i); [| reflexivity]. cbn [getitem].
  destruct (Z.eqb_spec pin i) as [<- | Hne]; [| reflexivity].
  rewrite Hin. simpl. rewrite !andb_false_r. reflexivity.
Qed.

Lemma getitem_perm {V} (d d' : list (Z * V)) (k : Z) :
  Permutation d d' -> List.NoDup (keys d) -> getitem d k = getitem d' k.
Proof.
  induction 1 as [| [kx vx] l l' Hperm IH | [kx vx] [ky vy] l
                 | l l' l'' Hperm1 IH1 Hperm2 IH2]; intros Hnodup.
  - reflexivity.
  - simpl. destruct (kx =? k); [reflexivity |].
    apply IH. simpl in Hnodup. inversion Hnodup. assumption.
  - simpl. destruct (Z.eqb_spec ky k) as [-> | Hy];
      destruct (Z.eqb_spec kx k) as [-> | Hx]; try reflexivity.
    simpl in Hnodup. inversion Hnodup as [| ? ? Hnotin _].
    contradiction Hnotin. left. reflexivity.
  - rewrite IH1 by exact Hnodup. apply IH2.
    apply (Permutation_NoDup (l := keys l)); [| exact Hnodup].
    apply Permutation_map, Hperm1.
Qed.

(** X19. The order of the entries of the mapping does not matter to
    [digital_write_bulk]: two mappings with the same entries (distinct
    pins) in different orders give the same outcome, the same byte on
    the bus and the same object. *)
Theorem digital_write_bulk_ignores_order
    (pins pins' : list (Z * bool)) (self : PCF8574IO) :
  wf self ->
  List.NoDup (keys pins) ->
  Permutation pins pins' ->
  digital_write_bulk wraps pins self = digital_write_bulk wraps pins' self.
Proof.
  intros Hwf Hnodup Hperm.
  destruct (digital_write_bulk_value pins self Hwf) as (v & Hv & Hbits & ->).
  destruct (digital_write_bulk_value pins' self Hwf) as (v' & Hv' & Hbits' & ->).
  f_equal. apply Z.bits_inj'. intros i _.
  rewrite Hbits, Hbits'. unfold bulk_bit.
  rewrite (getitem_perm pins pins' i Hperm Hnodup). reflexivity.
Qed.

Lemma masked_bit (s d i : Z) :
  Z.land s d = 0 -> Z.testbit s i = Z.testbit s i && negb (Z.testbit d i).
Proof.
  intros Hmask. apply (f_equal (fun z => Z.testbit z i)) in Hmask.
  rewrite Z.land_spec, Z.bits_0 in Hmask.
  destruct (Z.testbit s i), (Z.testbit d i); simpl in *; congruence.
Qed.

Lemma digital_write_bulk_dirmask (pins : list (Z * bool)) (self : PCF8574IO) :
  wf self ->
  _dirmask (snd (digital_write_bulk wraps pins self)) = _dirmask self /\
  length (transfers (_bus (snd (digital_write_bulk wraps pins self)))) =
    S (length (transfers (_bus self))).
Proof.
  intros Hwf.
  destruct (digital_write_bulk_value pins self Hwf) as (v & Hv & _ & ->).
  destruct (write_effect v self Hwf Hv) as (_ & _ & Ht & Hd & _).
  split; [exact Hd |]. rewrite Ht, length_app. simpl. lia.
Qed.

Lemma one_by_one_bits (pins : list (Z * bool)) :
  List.NoDup (keys pins) ->
  forall self, wf self -> masked self ->
  (forall i,
     Z.testbit (_shadow (run wraps (one_by_one pins) self)) i =
       bulk_bit pins (_shadow self) i && negb (Z.testbit (_dirmask self) i)) /\
  _dirmask (run wraps (one_by_one pins) self) = _dirmask self /\
  length (transfers (_bus (run wraps (one_by_one pins) self))) =
    (length (transfers (_bus self)) + length pins)%nat.
Proof.
  induction pins as [| [p h] rest IH]; intros Hnodup self Hwf Hmask.
  - split; [| split; [reflexivity | simpl; lia]].
    intros i. simpl. unfold bulk_bit. cbn [getitem].
    destruct (in_range i); apply masked_bit, Hmask.
  - simpl in Hnodup. inversion Hnodup as [| ? ? Hnotin Hnodup']. subst.
    cbn [one_by_one map run fold_left fst snd exec].
    fold (one_by_one rest).
    set (self1 := snd (digital_write wraps p h self)).
    fold (run wraps (one_by_one rest) self1).
    assert (wf self1) as Hwf1 by apply (exec_wf (DigitalWrite p h)), Hwf.
    destruct (digital_write_bulk_dirmask [(p, h)] self Hwf) as [Hd1 Hlen1].
    fold (digital_write wraps p h self) in Hd1, Hlen1. fold self1 in Hd1, Hlen1.
    assert (forall i, Z.testbit (_shadow self1) i =
              bulk_bit [(p, h)] (_shadow self) i &&
              negb (Z.testbit (_dirmask self) i)) as Hbits1
      by (intros i; apply digital_write_bulk_shadow_bits, Hwf).
    assert (masked self1) as Hmask1.
    { unfold masked. apply Z.bits_inj'. intros i _.
      rewrite Z.land_spec, Hbits1, Hd1, Z.bits_0.
      destruct (Z.testbit (_dirmask self) i); simpl;
        rewrite ?andb_false_r; reflexivity. }
    destruct (IH Hnodup' self1 Hwf1 Hmask1) as (Hbits & Hd & Hlen).
    split; [| split; [congruence | rewrite Hlen, Hlen1; simpl; lia]].
    intros i. rewrite Hbits, Hd1. unfold bulk_bit at 1. rewrite Hbits1.
    unfold bulk_bit. cbn [getitem].
    destruct (in_range i).
    + destruct (Z.eqb_spec p i) as [-> | Hne].
      * assert (getitem rest i = Raise KeyError) as ->.
        { apply getitem_no_key.
          destruct (existsb (Z.eqb i) (keys rest)) eqn:Hex; [| reflexivity].
          apply existsb_keys in Hex. contradiction. }
        destruct h, (Z.testbit (_dirmask self) i); reflexivity.
      * destruct (getitem rest i) as [h' |]; [reflexivity |].
        destruct (Z.testbit (_shadow self) i), (Z.testbit (_dirmask self) i);
          reflexivity.
    + destruct (Z.testbit (_shadow self) i), (Z.testbit (_dirmask self) i);
        reflexivity.
Qed.

(** X20. On a masked port, [digital_write_bulk(pins)] leaves the same
    shadow and direction mask as one [digital_write] per entry, in
    order (an exception of one not stopping the next), but costs one
    bus write where those cost one each. *)
Theorem digital_write_bulk_batches_digital_writes
    (pins : list (Z * bool)) (self : PCF8574IO) :
  wf self ->
  Z.land (_shadow self) (_dirmask self) = 0 ->
  List.NoDup (keys pins) ->
  let bulk := snd (digital_write_bulk wraps pins self) in
  let single := run wraps (one_by_one pins) self in
  _shadow bulk = _shadow single /\
  _dirmask bulk = _dirmask single /\
  length (transfers (_bus bulk)) = S (length (transfers (_bus self))) /\
  length (transfers (_bus single)) =
    (length (transfers (_bus self)) + length pins)%nat.
Proof.
  intros Hwf Hmask Hnodup. cbv zeta.
  destruct (one_by_one_bits pins Hnodup self Hwf Hmask) as (Hbits & Hd & Hlen).
  destruct (digital_write_bulk_dirmask pins self Hwf) as [Hd' Hlen'].
  split; [| split; [congruence | split; assumption]].
  apply Z.bits_inj'. intros i _.
  rewrite Hbits. apply digital_write_bulk_shadow_bits, Hwf.
Qed.

(** X21. A port as constructed has every pin as input, so nothing can
    be driven yet: whatever mapping [digital_write_bulk] is given, the
    byte it sends is 0x00 and the shadow becomes 0. *)
Theorem fresh_port_drives_nothing
    (bus : nat -> option byte) (addr : Z) (b : byte)
    (pins : list (Z * bool)) :
  bus 0%nat = Some b ->
  let self := snd (__init__ wraps bus addr) in
  _dirmask self = 255 /\
  _shadow self = byte_val b /\
  _shadow (snd (digital_write_bulk wraps pins self)) = 0 /\
  transfers (_bus (snd (digital_write_bulk wraps pins self))) =
    [ReadByte addr; WriteByte addr 0].
Proof.
  intros Hb. cbv zeta.
  pose proof (init_wf bus addr) as Hwf.
  assert (snd (__init__ wraps bus addr) =
            {| _bus := {| wire := bus; transfers := [ReadByte addr] |};
               address := addr; _dirmask := 255; _shadow := byte_val b |})
    as Hself by (rewrite init_eq, Hb; reflexivity).
  rewrite Hself in *.
  assert (_shadow (snd (digital_write_bulk wraps pins
            {| _bus := {| wire := bus; transfers := [ReadByte addr] |};
               address := addr; _dirmask := 255; _shadow := byte_val b |})) = 0)
    as Hzero.
  { apply Z.bits_inj'. intros i _.
    rewrite (digital_write_bulk_shadow_bits _ _ _ Hwf), Z.bits_0.
    cbn [_dirmask _shadow]. rewrite testbit_255. unfold bulk_bit, in_range, number_of_pins.
    destruct ((0 <=? i) && (i <? 8)) eqn:Hi; [apply andb_false_r |].
    rewrite (testbit_outside_u8 _ i (byte_val_range b)); [reflexivity |].
    intros H. rewrite (in8 i H) in Hi. discriminate. }
  split; [reflexivity | split; [reflexivity | split; [exact Hzero |]]].
  rewrite (digital_write_bulk_log pins _ Hwf), Hzero. reflexivity.
Qed.

(** ** Whole-port direction and the masking invariant over time *)

(** X22. [port_mode(True)] makes every pin an input, clears the shadow
    and sends 0x00; [port_mode(False)] makes every pin an output, keeps
    the shadow and sends it again.  Either way one bus write is issued. *)
Theorem port_mode_clears_or_keeps_shadow
    (input pullup pulldown : bool) (self : PCF8574IO) :
  wf self ->
  let self' := snd (port_mode wraps input pullup pulldown self) in
  _dirmask self' = (if input then 255 else 0) /\
  _shadow self' = (if input then 0 else _shadow self) /\
  transfers (_bus self') =
    transfers (_bus self) ++ [WriteByte (address self) (_shadow self')].
Proof.
  intros Hwf. cbv zeta. rewrite port_mode_eq.
  rewrite (poweroff_state _ (port_mode_wf' input self Hwf)). cbv zeta.
  cbn [_dirmask _shadow _bus address set_dirmask issue transfers].
  split; [reflexivity | split; [| reflexivity]].
  destruct input.
  - change (invert 255) with 0. apply Z.land_0_r.
  - change (invert 0) with 255. apply u8_iff, Hwf.
Qed.

Lemma write_keeps_masked (v : Z) (self : PCF8574IO) :
  wf self -> masked self -> masked (snd (write wraps v self)).
Proof.
  intros Hwf Hmask. rewrite (write_eq _ _ Hwf).
  destruct (uint8 wraps v) as [x |]; [| exact Hmask].
  cbv zeta. rewrite write_byte_state. apply land_invert_disjoint.
Qed.

Lemma serve_masked (r : request) (self : PCF8574IO) :
  wf self -> masked self -> keeps_mask r = true -> masked (serve wraps r self).
Proof.
  intros Hwf Hmask Hkeeps.
  destruct r as [[pin input pu pd localonly | input pu pd | pins | v
                  | pin high | pins] | | pin | pins | pin | pin value];
    cbn [serve exec keeps_mask] in *;
    rewrite ?read_state, ?digital_read_state, ?digital_read_bulk_state,
            ?analog_read_state;
    try exact Hmask; try discriminate Hkeeps.
  - apply negb_true_iff in Hkeeps. subst localonly. rewrite pin_mode_eq.
    destruct (shl1 pin) as [bit |]; [| exact Hmask].
    destruct (uint8 wraps bit) as [m |] eqn:Hm; [| exact Hmask].
    apply uint8_range in Hm. cbv zeta. apply poweroff_masked.
    apply set_dirmask_wf; [| exact Hwf].
    apply pin_mode_dirmask_range; [apply Hwf | exact Hm].
  - rewrite port_mode_eq. apply poweroff_masked, port_mode_wf', Hwf.
  - apply write_keeps_masked; assumption.
  - unfold digital_write.
    destruct (digital_write_bulk_eq [(pin, high)] self) as [[v | e] ->];
      [apply write_keeps_masked; assumption | exact Hmask].
  - destruct (digital_write_bulk_eq pins self) as [[v | e] ->];
      [apply write_keeps_masked; assumption | exact Hmask].
  - unfold analog_write, digital_write.
    destruct (digital_write_bulk_eq [(pin, 0 <? value)] self) as [[v | e] ->];
      [apply write_keeps_masked; assumption | exact Hmask].
Qed.

(** X23. Once [shadow & directionMask == 0] holds it keeps holding,
    through requests that return and through requests that raise, as
    long as none of them is a [pin_mode] with [localonly] or a
    [pin_mode_bulk]. *)
Theorem shadow_stays_masked (rs : list request) (self : PCF8574IO) :
  wf self ->
  Z.land (_shadow self) (_dirmask self) = 0 ->
  forallb keeps_mask rs = true ->
  Z.land (_shadow (session wraps rs self))
         (_dirmask (session wraps rs self)) = 0.
Proof.
  revert self. induction rs as [| r rs IH]; intros self Hwf Hmask Hall.
  - exact Hmask.
  - simpl in Hall. apply andb_true_iff in Hall as [Hr Hrs].
    simpl. apply IH; [apply serve_wf, Hwf | | exact Hrs].
    apply serve_masked; assumption.
Qed.

(** X24. When the chip answers, [analog_read(pin)] is 255 exactly when
    [pin] is inside 0..7, configured as input, and high in the byte
    read; in every other case, a pin outside the port included, it is 0. *)
Theorem analog_read_is_255_on_high_input
    (pin : Z) (self : PCF8574IO) (b : byte) :
  next_reply (_bus self) = Some b ->
  fst (analog_read wraps pin self) =
    Return (if in_range pin && Z.testbit (_dirmask self) pin &&
               Z.testbit (byte_val b) pin
            then 255 else 0).
Proof.
  intros Hb. rewrite analog_read_eq, digital_read_eq, Hb.
  destruct (in_range pin) eqn:Hpin.
  - apply in_range_iff in Hpin.
    rewrite (reading_in_range _ _ Hpin), Z.land_spec. cbn [andb].
    destruct (Z.testbit (_dirmask self) pin && Z.testbit (byte_val b) pin);
      reflexivity.
  - unfold reading. rewrite Hpin. reflexivity.
Qed.

End Properties.

(** ** Instances on concrete ports *)

Lemma wf_port_fresh : wf port_fresh.
Proof. apply init_wf. Defined.

Lemma wf_port_out : wf port_out.
Proof. apply run_wf, wf_port_fresh. Defined.

Lemma wf_port_mixed : wf port_mixed.
Proof. apply run_wf, wf_port_fresh. Defined.

Example port_mixed_attributes :
  _dirmask port_mixed = 240 /\ _shadow port_mixed = 10 /\
  transfers (_bus port_mixed) = [ReadByte 39; WriteByte 39 10; WriteByte 39 10].
Proof. vm_compute. repeat split. Qed.

Example port_out_attributes :
  _dirmask port_out = 0 /\ _shadow port_out = 90 /\
  transfers (_bus port_out) = [ReadByte 39; WriteByte 39 90; WriteByte 39 90].
Proof. vm_compute. repeat split. Qed.

(** A port as constructed is not masked yet: the mask is all ones and the
    shadow is the byte the chip returned. *)
Example port_fresh_not_masked :
  _dirmask port_fresh = 255 /\ _shadow port_fresh = 90 /\ ~ masked port_fresh.
Proof. repeat split. unfold masked. vm_compute. discriminate. Qed.

(** A negative pin makes [1 << pin] raise before anything is stored. *)
Example pin_mode_negative_pin :
  pin_mode strict (-1) true false false false port_mixed =
    (Raise ValueError, port_mixed).
Proof. reflexivity. Qed.

(** Pin 8 does not fit a [uint8]: newer numpy raises, older numpy wraps
    [1 << 8] to 0 and the call only synchronises the chip. *)
Example pin_mode_pin_8 :
  pin_mode strict 8 true false false false port_mixed =
    (Raise OverflowError, port_mixed) /\
  fst (pin_mode legacy 8 true false false false port_mixed) = Return tt /\
  _dirmask (snd (pin_mode legacy 8 true false false false port_mixed)) = 240.
Proof. vm_compute. repeat split. Qed.

(** [write(0xff)] on the mixed port: only the four output bits go out. *)
Lemma write_stores_masked_value_and_sends_it_witness :
  wf port_mixed /\ 0 <= 255 < 256 /\
  _shadow (snd (write strict 255 port_mixed)) = 15 /\
  transfers (_bus (snd (write strict 255 port_mixed))) =
    transfers (_bus port_mixed) ++ [WriteByte 39 15].
Proof.
  assert (0 <= 255 < 256) as Hv by lia.
  destruct (write_stores_masked_value_and_sends_it strict 255 port_mixed
              wf_port_mixed Hv) as (Hs & _ & Ht & _).
  split; [exact wf_port_mixed | split; [exact Hv |]].
  split; [exact Hs | rewrite Ht, Hs; reflexivity].
Defined.

(** A [digital_write] after a local-only [pin_mode], a [write] and a
    [pin_mode_bulk] on a fresh port. *)
Lemma shadow_masked_after_every_call_witness :
  let cs := [PinMode 3 false false false true; PortWrite 255;
             PinModeBulk [(0, (false, [])); (1, (true, [false; false]))]] in
  let c := DigitalWrite 3 true in
  wf port_fresh /\ immediate c = true /\
  fst (exec strict c (run strict cs port_fresh)) = Return tt /\
  Z.land (_shadow (snd (exec strict c (run strict cs port_fresh))))
         (_dirmask (snd (exec strict c (run strict cs port_fresh)))) = 0.
Proof.
  intros cs c.
  assert (immediate c = true) as Himm by reflexivity.
  assert (fst (exec strict c (run strict cs port_fresh)) = Return tt) as Hret
    by (vm_compute; reflexivity).
  split; [exact wf_port_fresh | split; [exact Himm | split; [exact Hret |]]].
  exact (shadow_masked_after_every_call strict port_fresh cs c
           wf_port_fresh Himm Hret).
Defined.

(** The chip of the mixed port answers 0x5a; pin 1 is an output whose
    line is high, and reads back false. *)
Lemma read_masks_with_direction_witness :
  next_reply (_bus port_mixed) = Some x5a /\
  0 <= 1 < 8 /\ Z.testbit (_dirmask port_mixed) 1 = false /\
  fst (read strict port_mixed) = Return 80 /\
  fst (digital_read strict 1 port_mixed) = Return (Some false).
Proof.
  assert (next_reply (_bus port_mixed) = Some x5a) as Hb by reflexivity.
  assert (0 <= 1 < 8) as Hpin by lia.
  assert (Z.testbit (_dirmask port_mixed) 1 = false) as Hout by reflexivity.
  destruct (read_masks_with_direction strict port_mixed) as (_ & _ & _ & H).
  destruct (H x5a Hb) as [Hread Hpins].
  split; [exact Hb | split; [exact Hpin | split; [exact Hout |]]].
  split; [exact Hread | exact (Hpins 1 Hpin Hout)].
Defined.

(** Pins 6, 1 and 9 requested at once from the mixed port. *)
Lemma digital_read_bulk_single_read_witness :
  next_reply (_bus port_mixed) = Some x5a /\
  transfers (_bus (snd (digital_read_bulk strict [6; 1; 9] port_mixed))) =
    transfers (_bus port_mixed) ++ [ReadByte 39] /\
  exists tor : gmap Z (option bool),
    fst (digital_read_bulk strict [6; 1; 9] port_mixed) = Return tor /\
    tor !! 6 = Some (Some true) /\ tor !! 1 = Some (Some false) /\
    tor !! 9 = Some None /\ tor !! 0 = None.
Proof.
  assert (next_reply (_bus port_mixed) = Some x5a) as Hb by reflexivity.
  destruct (digital_read_bulk_single_read strict [6; 1; 9] port_mixed)
    as [Ht H].
  destruct (H x5a Hb) as (tor & Hret & Hin & Hout & Hother).
  split; [exact Hb | split; [exact Ht |]].
  exists tor. split; [exact Hret |].
  split; [apply (Hin 6); simpl; [tauto | lia] |].
  split; [apply (Hin 1); simpl; [tauto | lia] |].
  split; [apply (Hout 9); simpl; [tauto | lia] |].
  apply (Hother 0). simpl. lia.
Defined.

(** Pin 0 high, pin 1 low and pin 9 high on the all-outputs port. *)
Lemma digital_write_bulk_single_write_witness :
  wf port_out /\
  exists value,
    (forall i, Z.testbit value i =
               bulk_bit [(0, true); (1, false); (9, true)] (_shadow port_out) i) /\
    transfers (_bus (snd (digital_write_bulk strict
                            [(0, true); (1, false); (9, true)] port_out))) =
      transfers (_bus port_out) ++
      [WriteByte 39 (Z.land value (Z.lnot (_dirmask port_out)))].
Proof.
  split; [exact wf_port_out |].
  destruct (digital_write_bulk_single_write strict
              [(0, true); (1, false); (9, true)] port_out wf_port_out)
    as (value & Hbits & _ & Ht & _).
  exists value. split; [exact Hbits | exact Ht].
Defined.

Example digital_write_bulk_sends_0x59 :
  transfers (_bus (snd (digital_write_bulk strict
                          [(0, true); (1, false); (9, true)] port_out))) =
    transfers (_bus port_out) ++ [WriteByte 39 89].
Proof. vm_compute. reflexivity. Qed.

Lemma steady_reliable (b : byte) : reliable (steady b).
Proof. intros n. unfold steady. discriminate. Defined.

(** The session on a chip that answers 0x5a. *)
Lemma open_configure_write_reconfigure_witness :
  reliable (steady x5a) /\
  _shadow (snd (port_mode strict true false false port_fresh)) = 0.
Proof.
  split; [apply steady_reliable |].
  exact (proj2 (proj1 (proj2
    (open_configure_write_reconfigure strict (steady x5a) 39
       (steady_reliable x5a))))).
Defined.

(** Pin 9 of the mixed port. *)
Lemma out_of_range_pin_ignored_or_none_witness :
  wf port_mixed /\ ~ 0 <= 9 < 8 /\
  next_reply (_bus port_mixed) = Some x5a /\
  digital_write_bulk strict [(9, true)] port_mixed =
    digital_write_bulk strict [] port_mixed /\
  fst (digital_read_bulk strict [9] port_mixed) = Return {[9 := None]}.
Proof.
  assert (~ 0 <= 9 < 8) as Hp by lia.
  assert (next_reply (_bus port_mixed) = Some x5a) as Hb by reflexivity.
  destruct (out_of_range_pin_ignored_or_none strict 9 port_mixed
              wf_port_mixed Hp) as (Heq & _ & _ & H).
  destruct (H x5a Hb) as [_ Hread].
  split; [exact wf_port_mixed | split; [exact Hp | split; [exact Hb |]]].
  split; [exact Heq | exact Hread].
Defined.

(** C8, as the claim has it, fails on a negative value:
    [analog_write(0, -1)] on the all-outputs port clears bit 0 of the
    shadow where [digital_write(0, True)] sets it. *)
Lemma analog_write_negative_is_not_high :
  -1 <> 0 /\
  analog_write strict 0 (-1) port_out <> digital_write strict 0 true port_out.
Proof.
  split; [discriminate |].
  intros H. apply (f_equal (fun r => _shadow (snd r))) in H.
  vm_compute in H. discriminate H.
Defined.

Example analog_write_negative_shadows :
  _shadow (snd (analog_write strict 0 (-1) port_out)) = 90 /\
  _shadow (snd (digital_write strict 0 true port_out)) = 91.
Proof. vm_compute. split; reflexivity. Qed.

Lemma analog_write_positive_is_high_witness :
  0 < 7 /\ -1 <= 0 /\
  analog_write strict 0 7 port_out = digital_write strict 0 true port_out /\
  analog_write strict 0 (-1) port_out = digital_write strict 0 false port_out.
Proof.
  assert (0 < 7) as Hpos by lia.
  assert (-1 <= 0) as Hneg by lia.
  split; [exact Hpos | split; [exact Hneg | split]].
  - exact (proj1 (analog_write_positive_is_high strict 0 7 port_out) Hpos).
  - exact (proj2 (analog_write_positive_is_high strict 0 (-1) port_out) Hneg).
Defined.

(** Pin 6 of the mixed port is an input whose line is high. *)
Lemma analog_read_255_or_0_witness :
  next_reply (_bus port_mixed) = Some x5a /\
  fst (digital_read strict 6 port_mixed) = Return (Some true) /\
  fst (analog_read strict 6 port_mixed) = Return 255.
Proof.
  assert (next_reply (_bus port_mixed) = Some x5a) as Hb by reflexivity.
  assert (fst (digital_read strict 6 port_mixed) = Return (Some true)) as Hd
    by (vm_compute; reflexivity).
  split; [exact Hb | split; [exact Hd |]].
  exact (proj2 (proj1 (proj2 (analog_read_255_or_0 strict 6 port_mixed))) Hd).
Defined.

(** Pins 9 and -1 of the mixed port. *)
Lemma digital_read_out_of_range_is_none_witness :
  ~ 0 <= 9 < 8 /\ next_reply (_bus port_mixed) = Some x5a /\
  fst (digital_read strict 9 port_mixed) = Return None /\
  fst (analog_read strict 9 port_mixed) = Return 0.
Proof.
  assert (~ 0 <= 9 < 8) as Hp by lia.
  assert (next_reply (_bus port_mixed) = Some x5a) as Hb by reflexivity.
  destruct (digital_read_out_of_range_is_none strict 9 port_mixed x5a Hp Hb)
    as [Hd Ha].
  split; [exact Hp | split; [exact Hb | split; [exact Hd | exact Ha]]].
Defined.

(** ** Instances of the further properties *)

Example num2boolgen_6 : num2boolgen 6 = [false; true; true].
Proof. reflexivity. Qed.

Example num2boolgen_0 : num2boolgen 0 = [false].
Proof. reflexivity. Qed.

Example num2boolgen_minus_5 : num2boolgen (-5) = [true; false; true; false].
Proof. reflexivity. Qed.

Lemma num2boolgen_yields_bits_witness :
  0 <= 6 /\
  nth 1 (num2boolgen 6) false = Z.testbit 6 1 /\
  Z.of_nat (length (num2boolgen 6)) = Z.max 1 (Z.log2 6 + 1).
Proof.
  assert (0 <= 6) as H by lia.
  destruct (num2boolgen_yields_bits 6 H) as (Hnth & Hlen & _).
  split; [exact H | split; [exact (Hnth 1%nat) | exact Hlen]].
Defined.

Lemma num2boolgen_round_trip_witness :
  0 <= 90 /\ bits_value (num2boolgen 90) = 90.
Proof.
  assert (0 <= 90) as H by lia.
  split; [exact H | exact (num2boolgen_round_trip 90 H)].
Defined.

Lemma num2boolgen_negative_witness :
  -5 < 0 /\ num2boolgen (-5) = num2boolgen (- -5) ++ [false].
Proof.
  assert (-5 < 0) as H by lia.
  split; [exact H | exact (num2boolgen_negative (-5) H)].
Defined.

Lemma pin_mode_sets_one_direction_bit_witness :
  wf port_mixed /\ 0 <= 5 < 8 /\
  forall i,
    Z.testbit
      (_dirmask (snd (pin_mode strict 5 false false false false port_mixed))) i =
    if i =? 5 then false else Z.testbit (_dirmask port_mixed) i.
Proof.
  assert (0 <= 5 < 8) as H by lia.
  split; [exact wf_port_mixed | split; [exact H |]].
  exact (pin_mode_sets_one_direction_bit strict 5 false false false false
           port_mixed wf_port_mixed H).
Defined.

Lemma pin_mode_out_of_range_keeps_mask_witness :
  wf port_mixed /\ ~ 0 <= -1 < 8 /\ -1 < 0 /\
  pin_mode legacy (-1) true false false false port_mixed =
    (Raise ValueError, port_mixed).
Proof.
  assert (~ 0 <= -1 < 8) as H by lia.
  assert (-1 < 0) as Hneg by lia.
  split; [exact wf_port_mixed | split; [exact H | split; [exact Hneg |]]].
  exact (proj2 (pin_mode_out_of_range_keeps_mask legacy (-1) true false false
                  false port_mixed wf_port_mixed H) Hneg).
Defined.

Lemma masked_port_mixed : Z.land (_shadow port_mixed) (_dirmask port_mixed) = 0.
Proof. reflexivity. Defined.

Lemma poweroff_inputs_resends_shadow_witness :
  wf port_mixed /\
  Z.land (_shadow port_mixed) (_dirmask port_mixed) = 0 /\
  snd (_poweroff_inputs strict port_mixed) =
    set_bus (issue (WriteByte (address port_mixed) (_shadow port_mixed))
               (_bus port_mixed)) port_mixed.
Proof.
  split; [exact wf_port_mixed | split; [exact masked_port_mixed |]].
  exact (poweroff_inputs_resends_shadow strict port_mixed wf_port_mixed
           masked_port_mixed).
Defined.

(** Pin 1 of the mixed port is an output that is high. *)
Lemma pin_comes_back_low_witness :
  wf port_mixed /\ 0 <= 1 < 8 /\
  Z.testbit (_shadow port_mixed) 1 = true /\
  Z.testbit
    (_shadow
       (snd (pin_mode strict 1 false false false false
               (snd (pin_mode strict 1 true false false false port_mixed))))) 1 =
    false.
Proof.
  assert (0 <= 1 < 8) as H by lia.
  split; [exact wf_port_mixed | split; [exact H | split; [reflexivity |]]].
  exact (proj2 (proj2 (pin_comes_back_low strict 1 false false false false
                         port_mixed wf_port_mixed H))).
Defined.

Lemma pin_mode_bulk_one_write_witness :
  let pins := [(5, (false, [])); (0, (true, [false; false]))] in
  wf port_mixed /\
  (forall k, In k (keys pins) -> 0 <= k < 8) /\
  exists d,
    (forall i, Z.testbit d i = bulk_direction_bit pins (_dirmask port_mixed) i) /\
    _dirmask (snd (pin_mode_bulk strict pins port_mixed)) = d.
Proof.
  intros pins.
  assert (forall k, In k (keys pins) -> 0 <= k < 8) as Hkeys
    by (intros k Hk; simpl in Hk; destruct Hk as [<- | [<- | []]]; lia).
  split; [exact wf_port_mixed | split; [exact Hkeys |]].
  destruct (pin_mode_bulk_one_write strict pins port_mixed wf_port_mixed Hkeys)
    as (d & Hbits & Hd & _).
  exists d. split; [exact Hbits | exact Hd].
Defined.

Example pin_mode_bulk_one_write_mask :
  _dirmask (snd (pin_mode_bulk strict
                   [(5, (false, [])); (0, (true, [false; false]))]
                   port_mixed)) = 209.
Proof. reflexivity. Qed.

Lemma pin_mode_bulk_stops_at_negative_pin_witness :
  let good := [(0, (true, []))] in
  wf port_mixed /\
  (forall k, In k (keys good) -> 0 <= k < 8) /\
  -1 < 0 /\
  exists d,
    (forall i, Z.testbit d i = bulk_direction_bit good (_dirmask port_mixed) i) /\
    pin_mode_bulk strict (good ++ (-1, (true, [])) :: [(5, (false, []))])
      port_mixed =
      (Raise ValueError, set_dirmask d port_mixed).
Proof.
  intros good.
  assert (forall k, In k (keys good) -> 0 <= k < 8) as Hkeys
    by (intros k Hk; simpl in Hk; destruct Hk as [<- | []]; lia).
  assert (-1 < 0) as Hneg by lia.
  split; [exact wf_port_mixed | split; [exact Hkeys | split; [exact Hneg |]]].
  exact (pin_mode_bulk_stops_at_negative_pin strict good [(5, (false, []))]
           (-1) (true, []) port_mixed wf_port_mixed Hkeys Hneg).
Defined.

(** The call that raised has left a shadow bit on a pin that is now an
    input. *)
Example pin_mode_bulk_stops_unmasked :
  let self' :=
    snd (pin_mode_bulk strict
           [(1, (true, [])); (-1, (true, [])); (5, (false, []))] port_mixed) in
  _dirmask self' = 242 /\ _shadow self' = 10 /\
  transfers (_bus self') = transfers (_bus port_mixed) /\
  Z.land (_shadow self') (_dirmask self') = 2.
Proof. vm_compute. repeat split. Qed.

(** A local-only [pin_mode] on a pin whose shadow bit is set breaks the
    masking until the next synchronisation. *)
Example pin_mode_localonly_unmasks :
  Z.land (_shadow port_mixed) (_dirmask port_mixed) = 0 /\
  Z.land (_shadow (snd (pin_mode strict 1 true false false true port_mixed)))
         (_dirmask (snd (pin_mode strict 1 true false false true port_mixed))) = 2.
Proof. vm_compute. split; reflexivity. Qed.

(** Pin 6 of the mixed port is an input whose line is high, pin 5 an
    input whose line is low. *)
Lemma digital_read_is_direction_and_line_witness :
  0 <= 6 < 8 /\ next_reply (_bus port_mixed) = Some x5a /\
  fst (digital_read strict 6 port_mixed) =
    Return (Some (Z.testbit (_dirmask port_mixed) 6 &&
                  Z.testbit (byte_val x5a) 6)).
Proof.
  assert (0 <= 6 < 8) as H by lia.
  assert (next_reply (_bus port_mixed) = Some x5a) as Hb by reflexivity.
  split; [exact H | split; [exact Hb |]].
  exact (digital_read_is_direction_and_line strict 6 port_mixed x5a H Hb).
Defined.

Lemma digital_read_bulk_ignores_order_and_repeats_witness :
  (forall p, In p [6; 1; 6] <-> In p [1; 6]) /\
  digital_read_bulk strict [6; 1; 6] port_mixed =
    digital_read_bulk strict [1; 6] port_mixed.
Proof.
  assert (forall p, In p [6; 1; 6] <-> In p [1; 6]) as H
    by (intros p; simpl; tauto).
  split; [exact H |].
  exact (digital_read_bulk_ignores_order_and_repeats strict _ _ port_mixed H).
Defined.

Lemma digital_write_bulk_drives_outputs_only_witness :
  wf port_mixed /\
  forall i,
    Z.testbit (_shadow (snd (digital_write_bulk strict
                               [(0, true); (6, true)] port_mixed))) i =
    bulk_bit [(0, true); (6, true)] (_shadow port_mixed) i &&
    negb (Z.testbit (_dirmask port_mixed) i).
Proof.
  split; [exact wf_port_mixed |].
  exact (proj1 (digital_write_bulk_drives_outputs_only strict
                  [(0, true); (6, true)] port_mixed wf_port_mixed)).
Defined.

Example digital_write_bulk_drives_outputs_only_byte :
  _shadow (snd (digital_write_bulk strict [(0, true); (6, true)] port_mixed)) = 11.
Proof. reflexivity. Qed.

Lemma digital_write_to_input_is_a_sync_witness :
  wf port_mixed /\ 0 <= 6 < 8 /\
  Z.testbit (_dirmask port_mixed) 6 = true /\
  digital_write strict 6 true port_mixed = _poweroff_inputs strict port_mixed.
Proof.
  assert (0 <= 6 < 8) as H by lia.
  assert (Z.testbit (_dirmask port_mixed) 6 = true) as Hin by reflexivity.
  split; [exact wf_port_mixed | split; [exact H | split; [exact Hin |]]].
  exact (digital_write_to_input_is_a_sync strict 6 true port_mixed
           wf_port_mixed H Hin).
Defined.

Lemma nodup_keys_0_2 : List.NoDup (keys [(0, true); (2, false)]).
Proof.
  constructor; [simpl; intros [H | []]; discriminate H |].
  constructor; [intros [] | constructor].
Defined.

Lemma digital_write_bulk_ignores_order_witness :
  wf port_out /\
  List.NoDup (keys [(0, true); (2, false)]) /\
  Permutation [(0, true); (2, false)] [(2, false); (0, true)] /\
  digital_write_bulk strict [(0, true); (2, false)] port_out =
    digital_write_bulk strict [(2, false); (0, true)] port_out.
Proof.
  assert (Permutation [(0, true); (2, false)] [(2, false); (0, true)]) as Hperm
    by apply perm_swap.
  split; [exact wf_port_out | split; [exact nodup_keys_0_2 | split; [exact Hperm |]]].
  exact (digital_write_bulk_ignores_order strict _ _ port_out wf_port_out
           nodup_keys_0_2 Hperm).
Defined.

Lemma masked_port_out : Z.land (_shadow port_out) (_dirmask port_out) = 0.
Proof. reflexivity. Defined.

Lemma digital_write_bulk_batches_digital_writes_witness :
  wf port_out /\
  Z.land (_shadow port_out) (_dirmask port_out) = 0 /\
  List.NoDup (keys [(0, true); (2, false)]) /\
  _shadow (snd (digital_write_bulk strict [(0, true); (2, false)] port_out)) =
    _shadow (run strict (one_by_one [(0, true); (2, false)]) port_out).
Proof.
  split; [exact wf_port_out | split; [exact masked_port_out |]].
  split; [exact nodup_keys_0_2 |].
  exact (proj1 (digital_write_bulk_batches_digital_writes strict
                  [(0, true); (2, false)] port_out wf_port_out
                  masked_port_out nodup_keys_0_2)).
Defined.

Lemma fresh_port_drives_nothing_witness :
  steady x5a 0%nat = Some x5a /\
  _shadow (snd (digital_write_bulk strict [(3, true)] port_fresh)) = 0 /\
  transfers (_bus (snd (digital_write_bulk strict [(3, true)] port_fresh))) =
    [ReadByte 39; WriteByte 39 0].
Proof.
  assert (steady x5a 0%nat = Some x5a) as Hb by reflexivity.
  destruct (fresh_port_drives_nothing strict (steady x5a) 39 x5a [(3, true)] Hb)
    as (_ & _ & Hs & Ht).
  split; [exact Hb | split; [exact Hs | exact Ht]].
Defined.

Lemma port_mode_clears_or_keeps_shadow_witness :
  wf port_mixed /\
  _shadow (snd (port_mode strict true false false port_mixed)) = 0 /\
  _shadow (snd (port_mode strict false false false port_mixed)) =
    _shadow port_mixed.
Proof.
  split; [exact wf_port_mixed | split].
  - exact (proj1 (proj2 (port_mode_clears_or_keeps_shadow strict true false
                           false port_mixed wf_port_mixed))).
  - exact (proj1 (proj2 (port_mode_clears_or_keeps_shadow strict false false
                           false port_mixed wf_port_mixed))).
Defined.

(** A session on the mixed port in which a [pin_mode] raises and a
    [write] overflows. *)
Lemma shadow_stays_masked_witness :
  let rs := [Change (PinMode (-1) true false false false);
             Change (PortWrite 300); AnalogWrite 1 0; DigitalRead 6;
             Change (PinMode 2 true false false false)] in
  wf port_mixed /\
  Z.land (_shadow port_mixed) (_dirmask port_mixed) = 0 /\
  forallb keeps_mask rs = true /\
  Z.land (_shadow (session strict rs port_mixed))
         (_dirmask (session strict rs port_mixed)) = 0.
Proof.
  intros rs.
  assert (forallb keeps_mask rs = true) as Hall by reflexivity.
  split; [exact wf_port_mixed | split; [exact masked_port_mixed |]].
  split; [exact Hall |].
  exact (shadow_stays_masked strict rs port_mixed wf_port_mixed
           masked_port_mixed Hall).
Defined.

Lemma analog_read_is_255_on_high_input_witness :
  next_reply (_bus port_mixed) = Some x5a /\
  fst (analog_read strict 6 port_mixed) =
    Return (if in_range 6 && Z.testbit (_dirmask port_mixed) 6 &&
               Z.testbit (byte_val x5a) 6
            then 255 else 0).
Proof.
  assert (next_reply (_bus port_mixed) = Some x5a) as Hb by reflexivity.
  split; [exact Hb |].
  exact (analog_read_is_255_on_high_input strict 6 port_mixed x5a Hb).
Defined.
